(** * otva: category listing pipeline and grid column selector

    Shallow embedding of [src/components/CategorySection.tsx]:
    - [GridLayout]: [getOptimalColumns], the responsive column selector;
    - [Js]: the JavaScript values the listing code handles;
    - [Dom]: the DOM tree read by [parseXmlResponse];
    - [Listing]: [parseXmlResponse] and [fetchCategoryVideos];
    - [WebStorage], [Pager], [Markup], [Render]: the session storage, the
      page controls, the tag stripping and the three returns of the
      component;
    and of [DbService] and the health panel ([Db]).

    Strings are the UTF-8 bytes of the JavaScript string ([string]); array
    lengths and grid counts are [nat]; other JavaScript numbers are NaN, the
    two infinities and the doubles whose value is an integer. *)

From Stdlib Require Import List Bool Arith ZArith Lia.
From Stdlib Require Import Strings.String Strings.Ascii.
From Stdlib Require Import Numbers.DecimalString Numbers.DecimalPos.
From Stdlib Require Numbers.DecimalZ.
From Stdlib Require Import Sorting.Sorted.
Import ListNotations.

Set Warnings "-register-all".

Open Scope string_scope.
Open Scope list_scope.
Open Scope nat_scope.

(** ** Shared string helpers *)

(** Template interpolation [`${n}`] of a non-negative integer. *)
Definition nat_to_string (n : nat) : string :=
  NilEmpty.string_of_uint (Nat.to_uint n).

Definition is_digit (c : ascii) : bool :=
  let n := nat_of_ascii c in (48 <=? n) && (n <=? 57).

Definition digit_value (c : ascii) : nat := nat_of_ascii c - 48.

Definition rev_string (s : string) : string :=
  string_of_list_ascii (rev (list_ascii_of_string s)).

(** ** Grid layout selector *)

Module GridLayout.

(** The class list returned for an empty result and by the last [return]. *)
Definition default_token : string :=
  "grid-cols-2 sm:grid-cols-3 md:grid-cols-4 lg:grid-cols-5 xl:grid-cols-6".

(** [findDivisors]: the loop [for (i = 1; i <= n; i++)], pushing each [i]
    with [n % i === 0]. [findDivisors_from i k] runs [k] iterations from [i]. *)
Fixpoint findDivisors_from (n i k : nat) (divisors : list nat) : list nat :=
  match k with
  | O => divisors
  | S k' =>
      findDivisors_from n (S i) k'
        (if n mod i =? 0 then divisors ++ [i] else divisors)
  end.

Definition findDivisors (n : nat) : list nat := findDivisors_from n 1 n [].

(** [Array.prototype.includes] on numbers. *)
Definition includes (l : list nat) (x : nat) : bool := existsb (Nat.eqb x) l.

Definition colsMap : list (nat * string) :=
  [ (2, "grid-cols-2 sm:grid-cols-2 md:grid-cols-2 lg:grid-cols-2 xl:grid-cols-2");
    (3, "grid-cols-2 sm:grid-cols-3 md:grid-cols-3 lg:grid-cols-3 xl:grid-cols-3");
    (4, "grid-cols-2 sm:grid-cols-3 md:grid-cols-4 lg:grid-cols-4 xl:grid-cols-4");
    (5, "grid-cols-2 sm:grid-cols-3 md:grid-cols-4 lg:grid-cols-5 xl:grid-cols-5");
    (6, "grid-cols-2 sm:grid-cols-3 md:grid-cols-4 lg:grid-cols-5 xl:grid-cols-6");
    (7, "grid-cols-2 sm:grid-cols-3 md:grid-cols-4 lg:grid-cols-5 xl:grid-cols-7");
    (8, "grid-cols-2 sm:grid-cols-3 md:grid-cols-4 lg:grid-cols-5 xl:grid-cols-8") ].

Fixpoint colsMap_get (m : list (nat * string)) (cols : nat) : option string :=
  match m with
  | [] => None
  | (k, v) :: m' => if k =? cols then Some v else colsMap_get m' cols
  end.

Definition template_cols (cols : nat) : string :=
  ("grid-cols-2 sm:grid-cols-3 md:grid-cols-" ++ nat_to_string cols)%string.

(** Which operand of [colsMap[cols] || `...`] is returned. *)
Inductive ColsBranch := FromMap | FromTemplate.

Definition getResponsiveCols_branch (cols : nat) : ColsBranch :=
  match colsMap_get colsMap cols with
  | Some v => if String.eqb v "" then FromTemplate else FromMap
  | None => FromTemplate
  end.

Definition getResponsiveCols (cols : nat) : string :=
  match colsMap_get colsMap cols with
  | Some v => if String.eqb v "" then template_cols cols else v
  | None => template_cols cols
  end.

Definition preferredCols : list nat := [4; 5; 6; 3; 2].

(** [Math.ceil(count / cols)] on non-negative integers, [cols > 0]. *)
Definition ceil_div (count cols : nat) : nat :=
  if count mod cols =? 0 then count / cols else S (count / cols).

(** The condition of the second loop. The subtraction is on integers, as
    in the source. *)
Definition relaxed_fit (count cols : nat) : bool :=
  (count mod cols =? 0) || (cols mod count =? 0)
  || (Z.of_nat (ceil_div count cols * cols) - Z.of_nat count <=? 2)%Z.

(** A [for ... of] loop that returns at the first element passing [test]. *)
Fixpoint first_match (test : nat -> bool) (l : list nat) : option nat :=
  match l with
  | [] => None
  | c :: l' => if test c then Some c else first_match test l'
  end.

Definition pass1 (count : nat) : option nat :=
  first_match (includes (findDivisors count)) preferredCols.

Definition pass2 (count : nat) : option nat :=
  first_match (relaxed_fit count) preferredCols.

Definition getOptimalColumns (count : nat) : string :=
  if count =? 0 then default_token
  else
    match pass1 count with
    | Some cols => getResponsiveCols cols
    | None =>
        match pass2 count with
        | Some cols => getResponsiveCols cols
        | None => default_token
        end
    end.

(** The [return] statement a call leaves through. *)
Inductive Exit :=
| ExitEmpty
| ExitDivisor (cols : nat)
| ExitRelaxed (cols : nat)
| ExitFallback.

Definition getOptimalColumns_exit (count : nat) : Exit :=
  if count =? 0 then ExitEmpty
  else
    match pass1 count with
    | Some cols => ExitDivisor cols
    | None =>
        match pass2 count with
        | Some cols => ExitRelaxed cols
        | None => ExitFallback
        end
    end.

Definition exit_token (e : Exit) : string :=
  match e with
  | ExitEmpty | ExitFallback => default_token
  | ExitDivisor cols | ExitRelaxed cols => getResponsiveCols cols
  end.

(** The column count of the last (largest-breakpoint) class of a token:
    the decimal number the token ends with. *)
Fixpoint trailing_digits (rev_chars : list ascii) : list ascii :=
  match rev_chars with
  | [] => []
  | c :: cs => if is_digit c then c :: trailing_digits cs else []
  end.

Definition decimal_value (digits : list ascii) : nat :=
  fold_left (fun acc c => 10 * acc + digit_value c) digits 0.

Definition largestBreakpointCols (token : string) : option nat :=
  match rev (trailing_digits (rev (list_ascii_of_string token))) with
  | [] => None
  | ds => Some (decimal_value ds)
  end.

End GridLayout.

(** ** JavaScript values *)

Module Js.

(** Numbers: NaN, [Int z] for the double whose value is the integer [z]
    (the two zeros are not told apart), and the two infinities. Doubles
    with a fractional part are not values of this type. *)
Inductive number :=
| NaN
| Int (z : Z)
| Infinity (negative : bool).

(** The largest magnitude up to which every integer is a double: 2^53. *)
Definition max_safe : Z := 9007199254740992.

(** The double nearest to the integer [z], ties to the even significand:
    up to 2^53 the integer itself, above it the 53 leading bits rounded,
    and an infinity from 2^1024 on. *)
Definition round_to_double (z : Z) : number :=
  let a := Z.abs z in
  if (a <=? max_safe)%Z then Int z
  else
    let e := (Z.log2 a - 52)%Z in
    let q := Z.shiftr a e in
    let r := (a - Z.shiftl q e)%Z in
    let half := Z.shiftl 1 (e - 1) in
    let q' :=
      if (half <? r)%Z || ((r =? half)%Z && Z.odd q) then (q + 1)%Z else q in
    let m := Z.shiftl q' e in
    if (2 ^ 1024 <=? m)%Z then Infinity (z <? 0)%Z
    else Int (Z.sgn z * m).

Inductive value :=
| Undefined
| Null
| Bool (b : bool)
| Number (n : number)
| Str (s : string)
| Arr (items : list value)
| Obj (props : list (string * value)).

(** An object's own properties, in insertion order. *)
Definition props := list (string * value).

(** [ToBoolean]. *)
Definition truthy (v : value) : bool :=
  match v with
  | Undefined | Null => false
  | Bool b => b
  | Number NaN => false
  | Number (Int z) => negb (z =? 0)%Z
  | Number (Infinity _) => true
  | Str s => negb (String.eqb s "")
  | Arr _ | Obj _ => true
  end.

Definition truthy_string (s : string) : bool := negb (String.eqb s "").

(** [a || b] on a nullable string [a]. *)
Definition or_string (a : option string) (b : string) : string :=
  match a with
  | Some s => if truthy_string s then s else b
  | None => b
  end.

Fixpoint get_own (k : string) (o : props) : option value :=
  match o with
  | [] => None
  | (k', v) :: o' => if String.eqb k' k then Some v else get_own k o'
  end.

(** [o[k] = v]: an existing key keeps its place, a new key goes last. *)
Fixpoint set_prop (k : string) (v : value) (o : props) : props :=
  match o with
  | [] => [(k, v)]
  | (k', v') :: o' =>
      if String.eqb k' k then (k, v) :: o' else (k', v') :: set_prop k v o'
  end.

(** The result of an evaluation that may throw. *)
Inductive outcome (A : Type) :=
| Returned (a : A)
| Thrown.
Arguments Returned {A} a.
Arguments Thrown {A}.

Definition bind {A B : Type} (m : outcome A) (f : A -> outcome B) : outcome B :=
  match m with
  | Returned a => f a
  | Thrown => Thrown
  end.

(** The read [v.k] for a name [k] that no built-in prototype defines
    ([list], [pagecount]): an own property of an object, [undefined] on
    any other value, a TypeError on [null] and [undefined]. *)
Definition getProp (v : value) (k : string) : outcome value :=
  match v with
  | Undefined | Null => Thrown
  | Obj o =>
      match get_own k o with
      | Some x => Returned x
      | None => Returned Undefined
      end
  | _ => Returned Undefined
  end.

(** [Array.isArray]. *)
Definition isArray (v : value) : bool :=
  match v with
  | Arr _ => true
  | _ => false
  end.

Definition array_items (v : value) : list value :=
  match v with
  | Arr l => l
  | _ => []
  end.

(** Index keys ["0"], ["1"], ... paired with the elements of [l]. *)
Fixpoint indexed_from {A : Type} (i : nat) (l : list A) : list (string * A) :=
  match l with
  | [] => []
  | x :: l' => (nat_to_string i, x) :: indexed_from (S i) l'
  end.

(** The own enumerable properties copied by [{...item}]. *)
Definition spread (item : value) : props :=
  match item with
  | Obj o => o
  | Arr l => indexed_from 0 l
  | Str s =>
      indexed_from 0
        (map (fun c => Str (String c "")) (list_ascii_of_string s))
  | _ => []
  end.

(** [Array.prototype.join] on strings. *)
Fixpoint join (sep : string) (l : list string) : string :=
  match l with
  | [] => ""
  | [x] => x
  | x :: l' => (x ++ sep ++ join sep l')%string
  end.

(** White space and line terminators of the ASCII range: U+0009 to
    U+000D and U+0020. *)
Definition is_space (c : ascii) : bool :=
  let n := nat_of_ascii c in
  (n =? 32) || ((9 <=? n) && (n <=? 13)).

(** The first byte of the white space that takes two or three bytes. *)
Definition space_lead (a : ascii) : bool :=
  let x := nat_of_ascii a in
  (x =? 194) || (x =? 225) || (x =? 226) || (x =? 227) || (x =? 239).

(** U+00A0. *)
Definition is_space2 (a b : ascii) : bool :=
  (nat_of_ascii a =? 194) && (nat_of_ascii b =? 160).

(** U+1680, U+2000 to U+200A, U+2028, U+2029, U+202F, U+205F, U+3000 and
    U+FEFF. *)
Definition is_space3 (a b c : ascii) : bool :=
  let x := nat_of_ascii a in
  let y := nat_of_ascii b in
  let w := nat_of_ascii c in
  ((x =? 225) && (y =? 154) && (w =? 128))
  || ((x =? 226) && (y =? 128)
      && (((128 <=? w) && (w <=? 138)) || (w =? 168) || (w =? 169)
          || (w =? 175)))
  || ((x =? 226) && (y =? 129) && (w =? 159))
  || ((x =? 227) && (y =? 128) && (w =? 128))
  || ((x =? 239) && (y =? 187) && (w =? 191)).

(** [String.prototype.trimStart]: the white space and line terminators of
    ECMAScript are dropped from the front. *)
Fixpoint trim_start (s : string) : string :=
  match s with
  | EmptyString => EmptyString
  | String a s1 =>
      if is_space a then trim_start s1
      else if space_lead a then
        match s1 with
        | String b s2 =>
            if is_space2 a b then trim_start s2
            else
              match s2 with
              | String c s3 => if is_space3 a b c then trim_start s3 else s
              | EmptyString => s
              end
        | EmptyString => s
        end
      else s
  end.

(** [s] is white space and line terminators only. *)
Fixpoint all_space (s : string) : bool :=
  match s with
  | EmptyString => true
  | String a s1 =>
      if is_space a then all_space s1
      else if space_lead a then
        match s1 with
        | String b s2 =>
            if is_space2 a b then all_space s2
            else
              match s2 with
              | String c s3 => is_space3 a b c && all_space s3
              | EmptyString => false
              end
        | EmptyString => false
        end
      else false
  end.

(** [String.prototype.trimEnd]. *)
Fixpoint trim_end (s : string) : string :=
  match s with
  | EmptyString => EmptyString
  | String a s1 => if all_space s then EmptyString else String a (trim_end s1)
  end.

(** [String.prototype.trim]. *)
Definition trim (s : string) : string := trim_end (trim_start s).

(** [String.prototype.startsWith]. *)
Definition startsWith (s p : string) : bool := String.prefix p s.

(** [String.prototype.includes]. *)
Fixpoint str_includes (s sub : string) : bool :=
  String.prefix sub s
  || match s with
     | String _ s' => str_includes s' sub
     | EmptyString => false
     end.

(** Digit value of [c] in radix 10 or 16. *)
Definition radix_digit (radix : nat) (c : ascii) : option nat :=
  let n := nat_of_ascii c in
  if (48 <=? n) && (n <=? 57) then Some (n - 48)
  else if (radix =? 16) && (97 <=? n) && (n <=? 102) then Some (n - 87)
  else if (radix =? 16) && (65 <=? n) && (n <=? 70) then Some (n - 55)
  else None.

(** Longest prefix of digits, read left to right; [None] before the first
    digit. *)
Fixpoint read_digits (radix : nat) (s : string) (acc : option Z) : option Z :=
  match s with
  | EmptyString => acc
  | String c s' =>
      match radix_digit radix c with
      | Some d =>
          read_digits radix s'
            (Some (Z.of_nat radix
                   * match acc with Some a => a | None => 0 end
                   + Z.of_nat d)%Z)
      | None => acc
      end
  end.

Definition strip_sign (s : string) : Z * string :=
  match s with
  | String "-" s' => ((-1)%Z, s')
  | String "+" s' => (1%Z, s')
  | _ => (1%Z, s)
  end.

Definition strip_hex_prefix (s : string) : nat * string :=
  match s with
  | String "0" (String "x" s') => (16, s')
  | String "0" (String "X" s') => (16, s')
  | _ => (10, s)
  end.

(** [parseInt(s)] with no radix argument: the integer the digits denote,
    as a double. *)
Definition parseInt (s : string) : number :=
  let (sign, s1) := strip_sign (trim_start s) in
  let (radix, s2) := strip_hex_prefix s1 in
  match read_digits radix s2 None with
  | Some n => round_to_double (sign * n)
  | None => NaN
  end.

End Js.

(** ** The DOM tree of a parsed XML document *)

Module Dom.

Inductive node :=
| Element (tagName : string) (attributes : list (string * string))
    (childNodes : list node)
| Text (data : string)
| Comment (data : string).

(** Induction on trees, with the hypothesis on every child. *)
Section NodeInduction.

Variable P : node -> Prop.
Hypothesis P_element :
  forall t attrs cs, Forall P cs -> P (Element t attrs cs).
Hypothesis P_text : forall d, P (Text d).
Hypothesis P_comment : forall d, P (Comment d).

Fixpoint node_induction (n : node) : P n :=
  match n with
  | Element t attrs cs =>
      P_element t attrs cs
        ((fix all (l : list node) : Forall P l :=
            match l with
            | [] => Forall_nil P
            | c :: l' => Forall_cons c (node_induction c) (all l')
            end) cs)
  | Text d => P_text d
  | Comment d => P_comment d
  end.

End NodeInduction.

(** A document and its top-level nodes. *)
Record Document := { docNodes : list node }.

Definition children (n : node) : list node :=
  match n with
  | Element _ _ cs => cs
  | _ => []
  end.

(** The elements of the tree rooted at [n], in document order. *)
Fixpoint subtree (n : node) : list node :=
  match n with
  | Element _ _ cs => n :: flat_map subtree cs
  | _ => []
  end.

Definition has_tag (tag : string) (n : node) : bool :=
  match n with
  | Element t _ _ => String.eqb t tag
  | _ => false
  end.

(** [element.getElementsByTagName(tag)]: the descendants named [tag]. *)
Definition getElementsByTagName (tag : string) (n : node) : list node :=
  filter (has_tag tag) (flat_map subtree (children n)).

(** [document.getElementsByTagName(tag)]. *)
Definition doc_getElementsByTagName (tag : string) (d : Document) : list node :=
  filter (has_tag tag) (flat_map subtree (docNodes d)).

(** [textContent] of an element: the text of its descendants, comments
    left out. *)
Fixpoint textContent (n : node) : string :=
  match n with
  | Element _ _ cs => String.concat "" (map textContent cs)
  | Text d => d
  | Comment _ => ""
  end.

Fixpoint attr_get (name : string) (attrs : list (string * string)) : option string :=
  match attrs with
  | [] => None
  | (k, v) :: attrs' => if String.eqb k name then Some v else attr_get name attrs'
  end.

(** [element.getAttribute(name)]; [None] is [null]. *)
Definition getAttribute (name : string) (n : node) : option string :=
  match n with
  | Element _ attrs _ => attr_get name attrs
  | _ => None
  end.

(** The number of elements named [tag] in a tree. *)
Fixpoint count_tag (tag : string) (n : node) : nat :=
  match n with
  | Element t _ cs =>
      (if String.eqb t tag then 1 else 0)
      + fold_right (fun c acc => count_tag tag c + acc) 0 cs
  | _ => 0
  end.

Definition doc_count_tag (tag : string) (d : Document) : nat :=
  fold_right (fun c acc => count_tag tag c + acc) 0 (docNodes d).

End Dom.

(** ** The listing pipeline *)

Module Listing.
Import Js Dom.

(** [VideoApi]: the source a listing is requested from. *)
Record VideoApi := { id : string; name : string; url : string }.

(** The [fields] table of [parseXmlResponse]: child tag, record field. *)
Definition fields : list (string * string) :=
  [ ("id", "vod_id"); ("name", "vod_name"); ("pic", "vod_pic");
    ("type", "type_name"); ("year", "vod_year"); ("area", "vod_area");
    ("director", "vod_director"); ("actor", "vod_actor");
    ("note", "vod_remarks"); ("des", "vod_content") ].

(** One step of [fields.forEach]: the first descendant named [tag], when
    there is one, gives the field its text content. *)
Definition copyField (video : node) (videoData : props) (tf : string * string) : props :=
  match getElementsByTagName (fst tf) video with
  | element :: _ => set_prop (snd tf) (Str (textContent element)) videoData
  | [] => videoData
  end.

(** The body of the loop over [ddElements]: [playUrls] and [playFroms]
    are the two components of the accumulator. *)
Definition pushDd (acc : list string * list string) (dd : node)
  : list string * list string :=
  let flag := or_string (getAttribute "flag" dd) "default" in
  let urls := textContent dd in
  if truthy_string urls then (fst acc ++ [urls], snd acc ++ [flag]) else acc.

(** The body of the loop over [dlElements]. *)
Definition pushDl (acc : list string * list string) (dl : node)
  : list string * list string :=
  fold_left pushDd (getElementsByTagName "dd" dl) acc.

(** [playUrls] and [playFroms] once both loops are done. *)
Definition playLists (video : node) : list string * list string :=
  fold_left pushDl (getElementsByTagName "dl" video) ([], []).

(** The [videoData] object built for one [video] element. *)
Definition parseVideo (video : node) : props :=
  let videoData := fold_left (copyField video) fields [] in
  let (playUrls, playFroms) := playLists video in
  let videoData := set_prop "vod_play_url" (Str (join "$$$" playUrls)) videoData in
  set_prop "vod_play_from" (Str (join "$$$" playFroms)) videoData.

(** The loop over [videoElements], pushing one object per element. *)
Definition parseVideos (videoElements : list node) : list value :=
  fold_left (fun videos video => videos ++ [Obj (parseVideo video)])
    videoElements [].

(** [parseInt(listElement.getAttribute(name) || '1')]. *)
Definition listAttr (name : string) (listElement : node) : number :=
  parseInt (or_string (getAttribute name listElement) "1").

Definition parsePage (xmlDoc : Document) : number :=
  match doc_getElementsByTagName "list" xmlDoc with
  | listElement :: _ => listAttr "page" listElement
  | [] => Int 1
  end.

Definition parsePagecount (xmlDoc : Document) : number :=
  match doc_getElementsByTagName "list" xmlDoc with
  | listElement :: _ => listAttr "pagecount" listElement
  | [] => Int 1
  end.

(** [parseXmlResponse], from the document [DOMParser] returns. *)
Definition parseXmlResponse (xmlDoc : Document) : value :=
  Obj [ ("code", Number (Int 1));
        ("list", Arr (parseVideos (doc_getElementsByTagName "video" xmlDoc)));
        ("page", Number (parsePage xmlDoc));
        ("pagecount", Number (parsePagecount xmlDoc)) ].

(** The component state the fetch reads and writes. [currentPage] is the
    page the caller requested. *)
Record State := {
  videos : list value;
  loading : bool;
  pageCount : value;
  currentPage : number
}.

Definition setVideos (vs : list value) (st : State) : State :=
  {| videos := vs; loading := loading st;
     pageCount := pageCount st; currentPage := currentPage st |}.

Definition setLoading (b : bool) (st : State) : State :=
  {| videos := videos st; loading := b;
     pageCount := pageCount st; currentPage := currentPage st |}.

Definition setPageCount (pc : value) (st : State) : State :=
  {| videos := videos st; loading := loading st;
     pageCount := pc; currentPage := currentPage st |}.

(** The initializer of [currentPage], from what
    [sessionStorage.getItem] returned: [savedPage ? parseInt(savedPage) : 1]. *)
Definition initialPage (savedPage : option string) : number :=
  match savedPage with
  | Some saved => if truthy_string saved then parseInt saved else Int 1
  | None => Int 1
  end.

(** The [useState] initial values of a component mounted with [savedPage]
    in the session storage. *)
Definition mountState (savedPage : option string) : State :=
  {| videos := []; loading := true;
     pageCount := Number (Int 1); currentPage := initialPage savedPage |}.

(** The [useState] defaults, with no page saved for the category. *)
Definition initialState : State := mountState None.

(** The callback of [data.list.map]:
    [{...item, source_name, source_code, api_url}]. *)
Definition stamp (api : VideoApi) (item : value) : value :=
  Obj (set_prop "api_url" (Str (url api))
         (set_prop "source_code" (Str (id api))
            (set_prop "source_name" (Str (name api)) (spread item)))).

(** The statement [if (data && Array.isArray(data.list)) ... else ...]. *)
Definition handleData (api : VideoApi) (data : value) (st : State) : outcome State :=
  if truthy data then
    bind (getProp data "list") (fun list =>
      if isArray list then
        bind (getProp data "pagecount") (fun pagecount =>
          let st' := if truthy pagecount then setPageCount pagecount st else st in
          Returned (setVideos (map (stamp api) (array_items list)) st'))
      else Returned (setVideos [] st))
  else Returned (setVideos [] st).

(** What the proxy answered: [response.ok], the [content-type] header
    ([None] when there is none) and the body text. *)
Record Response := {
  ok : bool;
  contentType : option string;
  body : string
}.

Inductive Parser := XmlParser | JsonParser.

(** The check made on the response of a source whose URL has the marker. *)
Definition responseIsXml (resp : Response) : bool :=
  str_includes (or_string (contentType resp) "") "xml"
  || startsWith (trim (body resp)) "<?xml".

(** The parser [fetchCategoryVideos] hands the body to: [parseXmlResponse],
    or [JSON.parse] / [response.json()]. *)
Definition selectedParser (api : VideoApi) (resp : Response) : Parser :=
  let isXmlApi := str_includes (url api) "/xml" in
  if isXmlApi then
    if responseIsXml resp then XmlParser else JsonParser
  else JsonParser.

Section Fetch.

(** [DOMParser.parseFromString(text, 'text/xml')]. *)
Variable parseFromString : string -> Document.
(** [JSON.parse]; [None] when it throws. *)
Variable JSON_parse : string -> option value.

Definition parseBody (api : VideoApi) (resp : Response) : outcome value :=
  match selectedParser api resp with
  | XmlParser => Returned (parseXmlResponse (parseFromString (body resp)))
  | JsonParser =>
      match JSON_parse (body resp) with
      | Some data => Returned data
      | None => Thrown
      end
  end.

(** The [try] block once [fetch] has resolved to [resp]. *)
Definition tryBlock (api : VideoApi) (resp : Response) (st : State) : outcome State :=
  if negb (ok resp) then Returned (setVideos [] st)
  else bind (parseBody api resp) (fun data => handleData api data st).

(** [fetchCategoryVideos]; [fetched] is [None] when [fetch] rejects. *)
Definition fetchCategoryVideos (api : VideoApi) (fetched : option Response)
    (st : State) : State :=
  let st1 := setLoading true st in
  let attempt :=
    match fetched with
    | Some resp => tryBlock api resp st1
    | None => Thrown
    end in
  let st2 :=
    match attempt with
    | Returned st' => st'
    | Thrown => setVideos [] st1
    end in
  setLoading false st2.

End Fetch.

End Listing.

(** ** Observations and concrete inputs *)

Module Fixtures.
Import Js Dom Listing.

(** A record carries a non-empty [vod_id]. *)
Definition vodIdNonEmpty (record : value) : bool :=
  match record with
  | Obj o =>
      match get_own "vod_id" o with
      | Some (Str s) => truthy_string s
      | Some Undefined | Some Null | None => false
      | Some _ => true
      end
  | _ => false
  end.

(** A page count that is a number and at least 1. *)
Definition atLeastOne (v : value) : bool :=
  match v with
  | Number (Int z) => (1 <=? z)%Z
  | Number (Infinity negative) => negb negative
  | _ => false
  end.

(** [data.list] is there and is an array. *)
Definition listIsArray (data : value) : bool :=
  truthy data
  && match getProp data "list" with
     | Returned v => isArray v
     | Thrown => false
     end.

(** The [dd] elements the two loops of [parseXmlResponse] visit, in the
    order they visit them. *)
Definition visitedDd (video : node) : list node :=
  flat_map (getElementsByTagName "dd") (getElementsByTagName "dl" video).

Definition ddFlag (dd : node) : string :=
  or_string (getAttribute "flag" dd) "default".

Definition ddHasText (dd : node) : bool := truthy_string (textContent dd).

(** The state a [try] block leaves, [catch] included. *)
Definition settle (attempt : outcome State) (st : State) : State :=
  match attempt with
  | Returned st' => st'
  | Thrown => setVideos [] st
  end.

Definition json_outcome (parsed : option value) : outcome value :=
  match parsed with
  | Some data => Returned data
  | None => Thrown
  end.

Definition srcApi : VideoApi := {| id := "s1"; name := "Src"; url := "http://x" |}.

(** The payload [{list: [{vod_id: '1', vod_name: 'A'}], pagecount: 3}]. *)
Definition listingPayload : value :=
  Obj [ ("list", Arr [Obj [("vod_id", Str "1"); ("vod_name", Str "A")]]);
        ("pagecount", Number (Int 3)) ].

(** A list entry that already names a source. *)
Definition presetEntry : value :=
  Obj [ ("vod_id", Str "9"); ("source_name", Str "other");
        ("source_code", Str "zz"); ("api_url", Str "http://other") ].

(** The payload [{list: 'not-an-array'}]. *)
Definition malformedPayload : value := Obj [("list", Str "not-an-array")].

(** The payload [{list: [], pagecount: 5}]. *)
Definition fivePagesPayload : value :=
  Obj [("list", Arr []); ("pagecount", Number (Int 5))].

(** The payload [{list: [{vod_name: 'A'}]}]. *)
Definition namelessPayload : value :=
  Obj [("list", Arr [Obj [("vod_name", Str "A")]])].

Definition dd_of (flag text : string) : node :=
  Element "dd" [("flag", flag)] [Text text].

(** [<dd flag='x'></dd>]. *)
Definition emptyDd : node := Element "dd" [("flag", "x")] [].

Definition video_of (dds : list node) : node :=
  Element "video" [] [Element "id" [] [Text "7"]; Element "dl" [] dds].

(** A [video] with an empty [dd] followed by one holding a URL. *)
Definition twoDdVideo : node := video_of [emptyDd; dd_of "y" "http://a"].

(** A [video] whose only [dd] holds one space. *)
Definition blankDdVideo : node := video_of [dd_of "x" " "].

(** A [video] with no [id] child. *)
Definition noIdVideo : node :=
  Element "video" [] [Element "name" [] [Text "A"]].

Definition doc_of (attrs : list (string * string)) (vs : list node) : Document :=
  {| docNodes := [Element "rss" [] [Element "list" attrs vs]] |}.

(** [<list page='x' pagecount='abc'>]. *)
Definition nonNumericDoc : Document :=
  doc_of [("page", "x"); ("pagecount", "abc")] [twoDdVideo].

(** [<list page='1' pagecount='-2'>]. *)
Definition negativeDoc : Document :=
  doc_of [("page", "1"); ("pagecount", "-2")] [twoDdVideo].

(** A document with no [list] element. *)
Definition bareDoc : Document := {| docNodes := [twoDdVideo] |}.

Definition noIdDoc : Document := doc_of [] [noIdVideo].

(** A source whose URL has no [/xml] marker, answering with XML. *)
Definition plainApi : VideoApi :=
  {| id := "s2"; name := "Plain"; url := "http://x/api.php/provide/vod" |}.

Definition markedApi : VideoApi :=
  {| id := "s3"; name := "Marked"; url := "http://x/api.php/provide/vod/at/xml" |}.

Definition xmlResponse : Response :=
  {| ok := true; contentType := Some "text/xml; charset=utf-8";
     body := "<?xml version='1.0'?><rss><list page='1' pagecount='1'></list></rss>" |}.

Definition jsonResponse : Response :=
  {| ok := true; contentType := Some "application/json"; body := "{}" |}.

End Fixtures.

(** ** Web storage *)

Module WebStorage.

(** The items of a [Storage] object, in insertion order. *)
Definition storage := list (string * string).

(** [getItem]; [None] is [null]. *)
Fixpoint getItem (key : string) (s : storage) : option string :=
  match s with
  | [] => None
  | (k, v) :: s' => if String.eqb k key then Some v else getItem key s'
  end.

(** [setItem]: an existing key keeps its place, a new key goes last. *)
Fixpoint setItem (key value : string) (s : storage) : storage :=
  match s with
  | [] => [(key, value)]
  | (k, v) :: s' =>
      if String.eqb k key then (key, value) :: s'
      else (k, v) :: setItem key value s'
  end.

End WebStorage.

(** ** The page controls of [CategorySection] *)

Module Pager.
Import Js WebStorage.

(** [Number.prototype.toString] on an integer. *)
Definition int_toString (z : Z) : string :=
  NilEmpty.string_of_int (Z.to_int z).

(** [Number.prototype.toString] on NaN, the infinities and an integer in
    plain digits, which is what it prints for every integer up to 2^53 in
    magnitude. *)
Definition number_toString (n : number) : string :=
  match n with
  | NaN => "NaN"
  | Int z => int_toString z
  | Infinity false => "Infinity"
  | Infinity true => "-Infinity"
  end.

(** The comparisons [<], [<=], [>], [>=] and [===] on numbers: every
    comparison with NaN is false. *)
Definition num_lt (a b : number) : bool :=
  match a, b with
  | NaN, _ | _, NaN => false
  | Int x, Int y => (x <? y)%Z
  | Int _, Infinity negative => negb negative
  | Infinity negative, Int _ => negative
  | Infinity negative, Infinity negative' => negative && negb negative'
  end.

Definition num_le (a b : number) : bool :=
  match a, b with
  | NaN, _ | _, NaN => false
  | Int x, Int y => (x <=? y)%Z
  | Int _, Infinity negative => negb negative
  | Infinity negative, Int _ => negative
  | Infinity negative, Infinity negative' => negative || negb negative'
  end.

Definition num_gt (a b : number) : bool := num_lt b a.
Definition num_ge (a b : number) : bool := num_le b a.

Definition num_eq (a b : number) : bool :=
  match a, b with
  | Int x, Int y => (x =? y)%Z
  | Infinity negative, Infinity negative' => Bool.eqb negative negative'
  | _, _ => false
  end.

Definition num_neg (a : number) : number :=
  match a with
  | NaN => NaN
  | Int x => Int (- x)
  | Infinity negative => Infinity (negb negative)
  end.

(** [a + b]: the sum of two integers is rounded to a double. *)
Definition num_add (a b : number) : number :=
  match a, b with
  | NaN, _ | _, NaN => NaN
  | Int x, Int y => round_to_double (x + y)
  | Int _, Infinity negative => Infinity negative
  | Infinity negative, Int _ => Infinity negative
  | Infinity negative, Infinity negative' =>
      if Bool.eqb negative negative' then Infinity negative else NaN
  end.

(** [a - b]. *)
Definition num_sub (a b : number) : number := num_add a (num_neg b).

Definition isNaN (n : number) : bool :=
  match n with
  | NaN => true
  | _ => false
  end.

(** An integer up to 2^53 in magnitude. *)
Definition safeInteger (n : number) : bool :=
  match n with
  | Int z => (Z.abs z <=? max_safe)%Z
  | _ => false
  end.

(** The state the page handlers read and write, [currentPage] and
    [pageCount] at their declared type [number], with the session storage. *)
Record Pager := {
  currentPage : number;
  pageCount : number;
  jumpPage : string;
  sessionStorage : storage
}.

(** The key [`category_${category.type_id}_page`]. *)
Definition pageKey (type_id : number) : string :=
  ("category_" ++ number_toString type_id ++ "_page")%string.

(** The initializer of [currentPage]:
    [savedPage ? parseInt(savedPage) : 1]. *)
Definition initialPage (type_id : number) (s : storage) : number :=
  match getItem (pageKey type_id) s with
  | Some savedPage => if truthy_string savedPage then parseInt savedPage else Int 1
  | None => Int 1
  end.

(** [setCurrentPage(newPage)] followed by
    [sessionStorage.setItem(key, newPage.toString())]. *)
Definition savePage (type_id newPage : number) (st : Pager) : Pager :=
  {| currentPage := newPage;
     pageCount := pageCount st;
     jumpPage := jumpPage st;
     sessionStorage :=
       setItem (pageKey type_id) (number_toString newPage) (sessionStorage st) |}.

Definition setJumpPage (text : string) (st : Pager) : Pager :=
  {| currentPage := currentPage st;
     pageCount := pageCount st;
     jumpPage := text;
     sessionStorage := sessionStorage st |}.

Definition handlePrevPage (type_id : number) (st : Pager) : Pager :=
  if num_gt (currentPage st) (Int 1) then
    savePage type_id (num_sub (currentPage st) (Int 1)) st
  else st.

Definition handleNextPage (type_id : number) (st : Pager) : Pager :=
  if num_lt (currentPage st) (pageCount st) then
    savePage type_id (num_add (currentPage st) (Int 1)) st
  else st.

Definition handleJumpPage (type_id : number) (st : Pager) : Pager :=
  let page := parseInt (jumpPage st) in
  if negb (isNaN page) && num_ge page (Int 1) && num_le page (pageCount st) then
    setJumpPage "" (savePage type_id page st)
  else st.

Definition handleJumpPageKeyDown (type_id : number) (key : string) (st : Pager)
  : Pager :=
  if String.eqb key "Enter" then handleJumpPage type_id st else st.

(** The [isDisabled] of the three buttons. *)
Definition prevDisabled (st : Pager) : bool := num_le (currentPage st) (Int 1).

Definition nextDisabled (st : Pager) : bool :=
  num_ge (currentPage st) (pageCount st).

Definition jumpDisabled (st : Pager) : bool :=
  negb (truthy_string (jumpPage st))
  || num_lt (parseInt (jumpPage st)) (Int 1)
  || num_gt (parseInt (jumpPage st)) (pageCount st)
  || num_eq (parseInt (jumpPage st)) (currentPage st).

(** Both pages are numbers and [1 <= currentPage <= pageCount]. *)
Definition inRange (st : Pager) : bool :=
  num_le (Int 1) (currentPage st) && num_le (currentPage st) (pageCount st).

End Pager.

(** ** The plain text of [vod_content] *)

Module Markup.

Definition lt_char : ascii := "<"%char.
Definition gt_char : ascii := ">"%char.

(** There is a [>] in [s]. *)
Fixpoint has_gt (s : string) : bool :=
  match s with
  | EmptyString => false
  | String c s' => Ascii.eqb c gt_char || has_gt s'
  end.

(** [s.replace(/<[^>]*>/g, '')], read left to right. Outside a match, a
    [<] with a [>] somewhere after it starts a match, and any other
    character is kept; inside a match, characters are dropped up to and
    including the first [>]. *)
Fixpoint stripTags_from (inside : bool) (s : string) : string :=
  match s with
  | EmptyString => EmptyString
  | String c s' =>
      if inside then
        if Ascii.eqb c gt_char then stripTags_from false s'
        else stripTags_from true s'
      else if Ascii.eqb c lt_char && has_gt s' then stripTags_from true s'
      else String c (stripTags_from false s')
  end.

Definition stripTags (s : string) : string := stripTags_from false s.

(** [/<[^>]*>/.test(s)]: some [<] of [s] has a [>] after it. *)
Fixpoint matchesTag (s : string) : bool :=
  match s with
  | EmptyString => false
  | String c s' => (Ascii.eqb c lt_char && has_gt s') || matchesTag s'
  end.

(** There is a [<] in [s]. *)
Fixpoint has_lt (s : string) : bool :=
  match s with
  | EmptyString => false
  | String c s' => Ascii.eqb c lt_char || has_lt s'
  end.

End Markup.

(** ** What [CategorySection] renders *)

Module Render.
Import Js Listing GridLayout.

(** The three returns of the component: the loading skeleton, [null], and
    the grid of cards with its class list. The sheet of the selected video
    and the page controls under the grid are not part of [View]. *)
Inductive View :=
| Skeleton
| Nothing
| Grid (gridCols : string) (cards : list value).

Definition render (st : State) : View :=
  if loading st then Skeleton
  else if List.length (videos st) =? 0 then Nothing
  else Grid (getOptimalColumns (List.length (videos st))) (videos st).

End Render.

(** ** [DbService] and the health panel of [AboutProject] *)

Module Db.
Import Js WebStorage.

(** What a rejected promise carries: the object [new Error(argument)],
    whose message is the string [argument] converts to, the TypeError of a
    read on [null] or [undefined], the SyntaxError of [response.json()], or
    the rejection of [fetch] itself. *)
Inductive exn :=
| JsError (argument : value)
| TypeError
| SyntaxError
| FetchRejected.

Inductive result (A : Type) :=
| Ok (a : A)
| Raise (e : exn).
Arguments Ok {A} a.
Arguments Raise {A} e.

(** The message of an [Error] built from a string; the conversion of
    other arguments to a string is not modelled. *)
Definition errorMessage (e : exn) : option string :=
  match e with
  | JsError (Str s) => Some s
  | _ => None
  end.

Definition userIdKey : string := "ouonnki-tv-user-id".

(** [getOrCreateUserId]: the id returned and the local storage left;
    [randomUUID] is what [crypto.randomUUID()] would return. *)
Definition getOrCreateUserId (randomUUID : string) (localStorage : storage)
  : string * storage :=
  match getItem userIdKey localStorage with
  | Some storedUserId =>
      if truthy_string storedUserId then (storedUserId, localStorage)
      else (randomUUID, setItem userIdKey randomUUID localStorage)
  | None => (randomUUID, setItem userIdKey randomUUID localStorage)
  end.

(** Properties written into an object literal after the ones it has:
    [{...target, ...source}]. *)
Definition assign (target source : props) : props :=
  fold_left (fun acc kv => set_prop (fst kv) (snd kv) acc) source target.

(** [options.headers] on the object [options]. *)
Definition optionHeaders (options : props) : value :=
  match get_own "headers" options with
  | Some h => h
  | None => Undefined
  end.

(** The [headers] literal of [request]. *)
Definition requestHeaders (userId : string) (options : props) : props :=
  assign [ ("Content-Type", Str "application/json");
           ("X-User-Id", Str userId) ]
    (spread (optionHeaders options)).

(** The second argument of [fetch]: [{...options, headers: {...}}]. *)
Definition requestInit (userId : string) (options : props) : props :=
  set_prop "headers" (Obj (requestHeaders userId options)) options.

(** The first argument of [fetch]: [`${this.baseUrl}/${path}`]. *)
Definition requestUrl (path : string) : string :=
  ("/api/db" ++ "/" ++ path)%string.

(** A response: [response.ok] and what [response.json()] resolves to,
    [None] when the body is not JSON. *)
Record Reply := { ok : bool; json : option value }.

Definition readJson (r : Reply) : result value :=
  match json r with
  | Some v => Ok v
  | None => Raise SyntaxError
  end.

(** [request], once [fetch] has settled; [fetched] is [None] when it
    rejects. *)
Definition request (fetched : option Reply) : result value :=
  match fetched with
  | None => Raise FetchRejected
  | Some response =>
      if negb (ok response) then
        match readJson response with
        | Ok error =>
            match getProp error "error" with
            | Returned message =>
                Raise (JsError (if truthy message then message
                                else Str "Request failed"))
            | Thrown => Raise TypeError
            end
        | Raise e => Raise e
        end
      else readJson response
  end.

(** The object of a [catch] block: an unhealthy status with the time of
    the failure. *)
Definition unhealthy (timestamp error : string) : value :=
  Obj [ ("status", Str "unhealthy");
        ("latency", Number (Int 0));
        ("timestamp", Str timestamp);
        ("error", Str error) ].

(** [checkHealth]; [now] is [new Date().toISOString()] in the [catch]. *)
Definition checkHealth (fetched : option Reply) (now : string) : result value :=
  match request fetched with
  | Ok status => Ok status
  | Raise _ => Ok (unhealthy now "Failed to connect to database API")
  end.

(** The state of the health panel. *)
Record HealthPanel := {
  healthStatus : option value;
  isChecking : bool
}.

(** The block of [checkDatabaseHealth] that ran to its end. *)
Inductive HealthBranch := TryBranch | CatchBranch.

Definition checkDatabaseHealth_branch (fetched : option Reply) (now : string)
  : HealthBranch :=
  match checkHealth fetched now with
  | Ok _ => TryBranch
  | Raise _ => CatchBranch
  end.

Definition setHealthStatus (status : value) (panel : HealthPanel) : HealthPanel :=
  {| healthStatus := Some status; isChecking := isChecking panel |}.

Definition setIsChecking (b : bool) (panel : HealthPanel) : HealthPanel :=
  {| healthStatus := healthStatus panel; isChecking := b |}.

(** [checkDatabaseHealth]; [now] and [later] are the times read by the two
    [catch] blocks. *)
Definition checkDatabaseHealth (fetched : option Reply) (now later : string)
    (panel : HealthPanel) : HealthPanel :=
  let panel1 := setIsChecking true panel in
  let panel2 :=
    match checkHealth fetched now with
    | Ok status => setHealthStatus status panel1
    | Raise _ =>
        setHealthStatus (unhealthy later "Failed to check database health")
          panel1
    end in
  setIsChecking false panel2.

End Db.

(** ** The column choice by remainders *)

Module GridTable.
Import GridLayout.

(** The candidate a call returns with, by the remainders of [count]. *)
Definition tableExit (count : nat) : Exit :=
  if count mod 4 =? 0 then ExitDivisor 4
  else if count mod 5 =? 0 then ExitDivisor 5
  else if count mod 6 =? 0 then ExitDivisor 6
  else if count mod 3 =? 0 then ExitDivisor 3
  else if count mod 2 =? 0 then ExitDivisor 2
  else if (count =? 1) || (count mod 4 =? 3) then ExitRelaxed 4
  else if 3 <=? count mod 5 then ExitRelaxed 5
  else if count mod 6 =? 5 then ExitRelaxed 6
  else ExitRelaxed 3.

End GridTable.

(** ** The keys of a parsed record *)

Module XmlShape.
Import Js Dom Listing.

(** The [video] element has a descendant named by the tag of [tf]. *)
Definition tagPresent (video : node) (tf : string * string) : bool :=
  match getElementsByTagName (fst tf) video with
  | [] => false
  | _ :: _ => true
  end.

(** The field names of the tags present, in the order of [fields],
    followed by the two playback keys. *)
Definition recordKeys (video : node) : list string :=
  map snd (filter (tagPresent video) fields)
  ++ ["vod_play_url"; "vod_play_from"].

End XmlShape.

(** ** Properties of the grid layout selector *)

Module GridFacts.
Import GridLayout.

Lemma first_match_some (test : nat -> bool) (l : list nat) (c : nat) :
  first_match test l = Some c -> In c l /\ test c = true.
Proof.
  induction l as [|x l IH]; simpl; [discriminate|].
  destruct (test x) eqn:Hx.
  - intros [= <-]. auto.
  - intros H. destruct (IH H). auto.
Qed.

(** The loop of [findDivisors] keeps what it had and adds the divisors
    of [n] among [i], ..., [i + k - 1]. *)
Lemma findDivisors_from_spec (n k i : nat) (acc : list nat) (c : nat) :
  In c (findDivisors_from n i k acc) <->
  In c acc \/ (i <= c < i + k /\ n mod c = 0).
Proof.
  revert i acc. induction k as [|k IH]; intros i acc; simpl.
  - split; [auto | intros [H|[H _]]; [assumption | lia]].
  - rewrite IH. destruct (n mod i =? 0) eqn:Hd.
    + apply Nat.eqb_eq in Hd. rewrite in_app_iff. simpl. split.
      * intros [[H|[H|[]]]|[H1 H2]]; [auto | subst; right; split; [lia|auto] |].
        right. split; [lia|auto].
      * intros [H|[H1 H2]]; [auto|].
        destruct (Nat.eq_dec i c); [left; right; left; assumption|].
        right. split; [lia|auto].
    + apply Nat.eqb_neq in Hd. split.
      * intros [H|[H1 H2]]; [auto|]. right. split; [lia|auto].
      * intros [H|[H1 H2]]; [auto|].
        destruct (Nat.eq_dec i c); [subst; contradiction|].
        right. split; [lia|auto].
Qed.

Lemma findDivisors_spec (n c : nat) :
  In c (findDivisors n) <-> 1 <= c <= n /\ n mod c = 0.
Proof.
  unfold findDivisors. rewrite findDivisors_from_spec. simpl.
  split; [intros [[]|[H1 H2]] | intros [H1 H2]; right]; (split; [lia|auto]).
Qed.

Lemma includes_In (l : list nat) (x : nat) : includes l x = true <-> In x l.
Proof.
  unfold includes. rewrite existsb_exists. split.
  - intros [y [Hy He]]. apply Nat.eqb_eq in He. subst. assumption.
  - intros H. exists x. split; [assumption | apply Nat.eqb_refl].
Qed.

(** [Math.ceil(count / cols) * cols] is the first multiple of [cols] from
    [count] on. *)
Lemma ceil_div_bounds (count cols : nat) :
  0 < cols -> count <= ceil_div count cols * cols < count + cols.
Proof.
  intros Hc. unfold ceil_div.
  pose proof (Nat.div_mod_eq count cols) as Hdm.
  pose proof (Nat.mod_upper_bound count cols ltac:(lia)) as Hub.
  destruct (count mod cols =? 0) eqn:Hz.
  - apply Nat.eqb_eq in Hz. nia.
  - apply Nat.eqb_neq in Hz. nia.
Qed.

Lemma relaxed_fit_3 (count : nat) : relaxed_fit count 3 = true.
Proof.
  unfold relaxed_fit.
  pose proof (ceil_div_bounds count 3 ltac:(lia)) as Hb.
  assert ((Z.of_nat (ceil_div count 3 * 3) - Z.of_nat count <=? 2)%Z = true)
    as -> by (apply Z.leb_le; lia).
  apply orb_true_r.
Qed.

Lemma pass2_accepts (count : nat) :
  exists cols, pass2 count = Some cols /\ In cols [4; 5; 6; 3].
Proof.
  unfold pass2, preferredCols. simpl.
  destruct (relaxed_fit count 4); [exists 4; simpl; auto|].
  destruct (relaxed_fit count 5); [exists 5; simpl; auto|].
  destruct (relaxed_fit count 6); [exists 6; simpl; auto|].
  rewrite relaxed_fit_3. exists 3. simpl. auto 6.
Qed.

Lemma getOptimalColumns_exit_token (count : nat) :
  getOptimalColumns count = exit_token (getOptimalColumns_exit count).
Proof.
  unfold getOptimalColumns, getOptimalColumns_exit.
  destruct (count =? 0); [reflexivity|].
  destruct (pass1 count); [reflexivity|].
  destruct (pass2 count); reflexivity.
Qed.

Lemma preferred_is_mapped (cols : nat) :
  In cols preferredCols ->
  In cols [2; 3; 4; 5; 6] /\
  getResponsiveCols_branch cols = FromMap /\
  largestBreakpointCols (getResponsiveCols cols) = Some cols.
Proof.
  unfold preferredCols. simpl.
  intros [<-|[<-|[<-|[<-|[<-|[]]]]]]; (split; [simpl; auto 8 | split; reflexivity]).
Qed.

(** C3 (as the code has it): for [count = 7] no candidate divides 7 in the
    first pass, and the relaxed second pass accepts its first candidate, 4,
    whose slack [ceil(7/4)*4 - 7] is 1; the token returned is the one for 4
    columns and its largest-breakpoint column count is 4. *)
Theorem getOptimalColumns_7 :
  pass1 7 = None /\
  relaxed_fit 7 4 = true /\
  pass2 7 = Some 4 /\
  getOptimalColumns_exit 7 = ExitRelaxed 4 /\
  getOptimalColumns 7
  = "grid-cols-2 sm:grid-cols-3 md:grid-cols-4 lg:grid-cols-4 xl:grid-cols-4" /\
  largestBreakpointCols (getOptimalColumns 7) = Some 4.
Proof. repeat split; reflexivity. Qed.

(** C3, refuted as stated: for [count = 7] the second pass does not accept
    candidate 5 and the largest-breakpoint column count is not 5. *)
Lemma getOptimalColumns_7_not_5 :
  pass2 7 <> Some 5 /\ largestBreakpointCols (getOptimalColumns 7) <> Some 5.
Proof. split; vm_compute; discriminate. Qed.

(** What [getResponsiveCols] returns on each side of [||]. *)
Lemma getResponsiveCols_by_branch (cols : nat) :
  match getResponsiveCols_branch cols with
  | FromMap => colsMap_get colsMap cols = Some (getResponsiveCols cols)
  | FromTemplate => getResponsiveCols cols = template_cols cols
  end.
Proof.
  unfold getResponsiveCols_branch, getResponsiveCols.
  destruct (colsMap_get colsMap cols) as [v|]; [|reflexivity].
  destruct (String.eqb v ""); reflexivity.
Qed.

(** For a preferred candidate the class list is its entry of [colsMap],
    which is neither the template string nor the entry of 7 or 8. *)
Lemma preferred_entry (cols : nat) :
  In cols preferredCols ->
  colsMap_get colsMap cols = Some (getResponsiveCols cols) /\
  getResponsiveCols cols <> template_cols cols /\
  colsMap_get colsMap 7 <> Some (getResponsiveCols cols) /\
  colsMap_get colsMap 8 <> Some (getResponsiveCols cols).
Proof.
  unfold preferredCols. simpl.
  intros [<-|[<-|[<-|[<-|[<-|[]]]]]];
    (split; [reflexivity|]); repeat split; vm_compute; discriminate.
Qed.

(** C10: for every [count >= 1] candidate 3 passes the relaxed test, so
    the second pass accepts a candidate, the call leaves through one of
    the two loops with a candidate [cols] of 2..6 and never through the
    last [return], and the class list it returns is the entry of [cols] in
    [colsMap]: not the template string, not the entry of 7 or of 8. *)
Theorem getOptimalColumns_candidate (count : nat) :
  1 <= count ->
  relaxed_fit count 3 = true /\
  pass2 count <> None /\
  getOptimalColumns_exit count <> ExitFallback /\
  getOptimalColumns count = exit_token (getOptimalColumns_exit count) /\
  exists cols,
    In cols [2; 3; 4; 5; 6] /\
    (getOptimalColumns_exit count = ExitDivisor cols \/
     getOptimalColumns_exit count = ExitRelaxed cols) /\
    getOptimalColumns count = getResponsiveCols cols /\
    colsMap_get colsMap cols = Some (getOptimalColumns count) /\
    getOptimalColumns count <> template_cols cols /\
    colsMap_get colsMap 7 <> Some (getOptimalColumns count) /\
    colsMap_get colsMap 8 <> Some (getOptimalColumns count) /\
    getResponsiveCols_branch cols = FromMap /\
    largestBreakpointCols (getOptimalColumns count) = Some cols.
Proof.
  intros Hc.
  destruct (pass2_accepts count) as [c2 [Hp2 Hin2]].
  split; [apply relaxed_fit_3|].
  split; [rewrite Hp2; discriminate|].
  pose proof (getOptimalColumns_exit_token count) as Htok.
  assert (exists cols,
             In cols preferredCols /\
             (getOptimalColumns_exit count = ExitDivisor cols \/
              getOptimalColumns_exit count = ExitRelaxed cols)) as Hexit.
  { unfold getOptimalColumns_exit.
    destruct (count =? 0) eqn:Hz; [apply Nat.eqb_eq in Hz; lia|].
    destruct (pass1 count) as [c1|] eqn:Hp1.
    - apply first_match_some in Hp1. destruct Hp1 as [Hin1 _].
      exists c1. auto.
    - rewrite Hp2. exists c2. split; [|auto].
      unfold preferredCols. simpl in *. intuition. }
  destruct Hexit as [cols [Hin Hexit]].
  split; [destruct Hexit as [-> | ->]; discriminate|].
  split; [assumption|].
  assert (getOptimalColumns count = getResponsiveCols cols) as Heq
    by (rewrite Htok; destruct Hexit as [-> | ->]; reflexivity).
  destruct (preferred_is_mapped cols Hin) as [Ha [Hb Hd]].
  destruct (preferred_entry cols Hin) as [He [Ht [H7 H8]]].
  exists cols. rewrite Heq. repeat split; assumption.
Qed.

Lemma getOptimalColumns_candidate_witness :
  1 <= 7 /\ pass2 7 <> None /\ getOptimalColumns_exit 7 <> ExitFallback.
Proof.
  split; [lia|].
  destruct (getOptimalColumns_candidate 7 ltac:(lia)) as [_ [H1 [H2 _]]].
  split; assumption.
Defined.

End GridFacts.

(** ** Properties of the XML listing parser *)

Module XmlFacts.
Import Js Dom Listing Fixtures.

Lemma get_own_set_same (k : string) (v : value) (o : props) :
  get_own k (set_prop k v o) = Some v.
Proof.
  induction o as [|[k' v'] o IH]; simpl.
  - now rewrite String.eqb_refl.
  - destruct (String.eqb k' k) eqn:E; simpl.
    + now rewrite String.eqb_refl.
    + now rewrite E.
Qed.

Lemma get_own_set_other (k k' : string) (v : value) (o : props) :
  k <> k' -> get_own k' (set_prop k v o) = get_own k' o.
Proof.
  intros Hne. induction o as [|[k0 v0] o IH]; simpl.
  - apply String.eqb_neq in Hne. now rewrite Hne.
  - destruct (String.eqb k0 k) eqn:E; simpl.
    + apply String.eqb_eq in E. subst k0.
      apply String.eqb_neq in Hne. now rewrite Hne.
    + destruct (String.eqb k0 k'); [reflexivity | exact IH].
Qed.

(** A loop that pushes one element per iteration builds a [map]. *)
Lemma push_loop_map {A B : Type} (f : A -> B) (l : list A) (acc : list B) :
  fold_left (fun out x => out ++ [f x]) l acc = acc ++ map f l.
Proof.
  revert acc. induction l as [|x l IH]; intros acc; simpl.
  - now rewrite app_nil_r.
  - rewrite IH, <- app_assoc. reflexivity.
Qed.

Lemma parseVideos_map (videoElements : list node) :
  parseVideos videoElements = map (fun video => Obj (parseVideo video)) videoElements.
Proof. unfold parseVideos. now rewrite push_loop_map. Qed.

Lemma count_forest (tag : string) (cs : list node) :
  Forall (fun c => List.length (filter (has_tag tag) (subtree c)) = count_tag tag c) cs ->
  List.length (filter (has_tag tag) (flat_map subtree cs))
  = fold_right (fun c acc => count_tag tag c + acc) 0 cs.
Proof.
  induction 1 as [|c cs Hc _ IH]; simpl; [reflexivity|].
  now rewrite filter_app, length_app, Hc, IH.
Qed.

Lemma count_subtree (tag : string) (n : node) :
  List.length (filter (has_tag tag) (subtree n)) = count_tag tag n.
Proof.
  induction n as [t attrs cs IH | d | d] using node_induction;
    try reflexivity.
  simpl. rewrite <- (count_forest tag cs IH).
  destruct (String.eqb t tag); reflexivity.
Qed.

Lemma doc_count (tag : string) (d : Document) :
  List.length (doc_getElementsByTagName tag d) = doc_count_tag tag d.
Proof.
  unfold doc_getElementsByTagName, doc_count_tag.
  apply count_forest. apply Forall_forall. intros c _. apply count_subtree.
Qed.

(** The two accumulators of the playback loops, as a filter of the
    visited [dd] elements. *)
Lemma pushDd_loop (dds : list node) (acc : list string * list string) :
  fold_left pushDd dds acc
  = (fst acc ++ map textContent (filter ddHasText dds),
     snd acc ++ map ddFlag (filter ddHasText dds)).
Proof.
  revert acc. induction dds as [|dd dds IH]; intros [us fs]; simpl.
  - now rewrite !app_nil_r.
  - rewrite IH. unfold pushDd, ddHasText, ddFlag.
    destruct (truthy_string (textContent dd)); simpl.
    + now rewrite <- !app_assoc.
    + reflexivity.
Qed.

Lemma pushDl_loop (dls : list node) (acc : list string * list string) :
  fold_left pushDl dls acc
  = (fst acc
     ++ map textContent
          (filter ddHasText (flat_map (getElementsByTagName "dd") dls)),
     snd acc
     ++ map ddFlag
          (filter ddHasText (flat_map (getElementsByTagName "dd") dls))).
Proof.
  revert acc. induction dls as [|dl dls IH]; intros [us fs]; simpl.
  - now rewrite !app_nil_r.
  - rewrite IH. unfold pushDl. rewrite pushDd_loop. simpl.
    now rewrite filter_app, !map_app, !app_assoc.
Qed.

Lemma playLists_filter (video : node) :
  playLists video
  = (map textContent (filter ddHasText (visitedDd video)),
     map ddFlag (filter ddHasText (visitedDd video))).
Proof. unfold playLists. now rewrite pushDl_loop. Qed.

Lemma copyField_other (video : node) (o : props) (tf : string * string) (k : string) :
  snd tf <> k -> get_own k (copyField video o tf) = get_own k o.
Proof.
  intros Hne. unfold copyField.
  destruct (getElementsByTagName (fst tf) video); [reflexivity|].
  now apply get_own_set_other.
Qed.

Lemma copyFields_other (video : node) (fs : list (string * string))
    (o : props) (k : string) :
  Forall (fun tf => snd tf <> k) fs ->
  get_own k (fold_left (copyField video) fs o) = get_own k o.
Proof.
  intros H. revert o. induction H as [|tf fs Hne _ IH]; intros o; simpl.
  - reflexivity.
  - rewrite IH. now apply copyField_other.
Qed.

(** C2: for every [video] element the two playback arrays have the same
    length when they are joined into the record: one entry each per
    visited [dd] with text, so both are empty when there is no [dd]. *)
Theorem playLists_same_length (video : node) :
  List.length (fst (playLists video)) = List.length (snd (playLists video)) /\
  List.length (fst (playLists video))
  = List.length (filter ddHasText (visitedDd video)) /\
  List.length (fst (playLists video)) <= List.length (visitedDd video) /\
  get_own "vod_play_url" (parseVideo video)
  = Some (Str (join "$$$" (fst (playLists video)))) /\
  get_own "vod_play_from" (parseVideo video)
  = Some (Str (join "$$$" (snd (playLists video)))).
Proof.
  unfold parseVideo. rewrite playLists_filter. simpl fst. simpl snd.
  rewrite !length_map. repeat split.
  - apply filter_length_le.
  - rewrite get_own_set_other by discriminate. apply get_own_set_same.
  - apply get_own_set_same.
Qed.

(** C4 (as the code has it): a [dd] whose text content is the empty
    string adds nothing to either array, wherever it stands among the
    visited [dd] elements; both arrays are the visited [dd] elements with
    non-empty text, in order; an empty [dd] followed by one holding
    [http://a] gives one entry in each array. *)
Theorem empty_dd_skipped (before after : list node) (dd : node)
    (acc : list string * list string) :
  textContent dd = "" ->
  fold_left pushDd (before ++ dd :: after) acc
  = fold_left pushDd (before ++ after) acc /\
  (forall video,
      playLists video
      = (map textContent (filter ddHasText (visitedDd video)),
         map ddFlag (filter ddHasText (visitedDd video)))) /\
  playLists twoDdVideo = (["http://a"], ["y"]).
Proof.
  intros Hempty. split; [|split; [apply playLists_filter | reflexivity]].
  assert (ddHasText dd = false) as Hskip
    by (unfold ddHasText; now rewrite Hempty).
  rewrite !pushDd_loop, !filter_app. simpl. now rewrite Hskip.
Qed.

Lemma empty_dd_skipped_witness :
  textContent emptyDd = "" /\
  fold_left pushDd ([] ++ emptyDd :: [dd_of "y" "http://a"]) ([], [])
  = fold_left pushDd ([] ++ [dd_of "y" "http://a"]) ([], []).
Proof.
  split; [reflexivity|].
  exact (proj1 (empty_dd_skipped [] [dd_of "y" "http://a"] emptyDd ([], [])
                  eq_refl)).
Defined.

(** C4, refuted as stated: a [dd] holding one space, which [trim] empties,
    adds an entry to both arrays. *)
Lemma blank_dd_pushed :
  textContent (dd_of "x" " ") = " " /\
  trim (textContent (dd_of "x" " ")) = "" /\
  visitedDd blankDdVideo = [dd_of "x" " "] /\
  playLists blankDdVideo = ([" "], ["x"]).
Proof. repeat split; reflexivity. Qed.

(** C9: the [list] of the parse result has one record per [video] element
    of the document, as many as the document has [video] elements, the
    record at each index built from the element at that index in document
    order. *)
Theorem parseXmlResponse_records (xmlDoc : Document) :
  exists records,
    getProp (parseXmlResponse xmlDoc) "list" = Returned (Arr records) /\
    List.length records = doc_count_tag "video" xmlDoc /\
    records
    = map (fun video => Obj (parseVideo video))
        (doc_getElementsByTagName "video" xmlDoc) /\
    forall i,
      nth_error records i
      = option_map (fun video => Obj (parseVideo video))
          (nth_error (doc_getElementsByTagName "video" xmlDoc) i).
Proof.
  exists (map (fun video => Obj (parseVideo video))
            (doc_getElementsByTagName "video" xmlDoc)).
  split; [simpl; now rewrite parseVideos_map|].
  split; [|split; [reflexivity|]].
  - rewrite length_map. apply doc_count.
  - intros i. apply nth_error_map.
Qed.

End XmlFacts.

(** ** Properties of the fetch *)

Module PipelineFacts.
Import Js Dom Listing Fixtures XmlFacts.

Lemma getProp_truthy (data : value) (k : string) :
  truthy data = true -> exists v, getProp data k = Returned v.
Proof.
  destruct data as [| |b|n|s|l|o]; simpl; try discriminate; eauto.
  destruct (get_own k o); eauto.
Qed.

(** The [if] statement on [data] never throws: [data &&] guards the reads. *)
Lemma handleData_returns (api : VideoApi) (data : value) (st : State) :
  exists st', handleData api data st = Returned st'.
Proof.
  unfold handleData. destruct (truthy data) eqn:T; [|eauto].
  destruct (getProp_truthy data "list" T) as [l ->]. simpl.
  destruct (isArray l); [|eauto].
  destruct (getProp_truthy data "pagecount" T) as [pc ->]. simpl. eauto.
Qed.

Lemma handleData_not_array (api : VideoApi) (data : value) (st : State) :
  listIsArray data = false ->
  handleData api data st = Returned (setVideos [] st).
Proof.
  unfold listIsArray, handleData.
  destruct (truthy data) eqn:T; simpl; [|reflexivity].
  destruct (getProp_truthy data "list" T) as [l ->]. simpl.
  now intros ->.
Qed.

Lemma handleData_array (api : VideoApi) (data : value) (entries : list value)
    (st : State) :
  getProp data "list" = Returned (Arr entries) ->
  exists pc,
    getProp data "pagecount" = Returned pc /\
    handleData api data st
    = Returned (setVideos (map (stamp api) entries)
                  (if truthy pc then setPageCount pc st else st)).
Proof.
  intros Hl.
  assert (truthy data = true) as T
    by (destruct data; simpl in *; try discriminate; reflexivity).
  destruct (getProp_truthy data "pagecount" T) as [pc Hpc].
  exists pc. split; [assumption|].
  unfold handleData. rewrite T, Hl. simpl. rewrite Hpc. reflexivity.
Qed.

Lemma stamp_fields (api : VideoApi) (item : value) :
  exists record,
    stamp api item = Obj record /\
    get_own "source_name" record = Some (Str (name api)) /\
    get_own "source_code" record = Some (Str (id api)) /\
    get_own "api_url" record = Some (Str (url api)) /\
    forall k,
      k <> "source_name" -> k <> "source_code" -> k <> "api_url" ->
      get_own k record = get_own k (spread item).
Proof.
  eexists. split; [reflexivity|]. repeat split.
  - rewrite !get_own_set_other by discriminate. apply get_own_set_same.
  - rewrite get_own_set_other by discriminate. apply get_own_set_same.
  - apply get_own_set_same.
  - intros k H1 H2 H3. now rewrite !get_own_set_other by congruence.
Qed.

(** C1: when [data.list] is an array the fetch keeps one stamped record
    per entry, and every stamped record has [source_name], [source_code]
    and [api_url] of the requesting source whatever the entry held under
    those keys; the payload with one entry and [pagecount] 3, fetched from
    the source [s1], gives one record with [vod_id] 1, [vod_name] A and
    the identity of [s1], and a page count of 3. *)
Theorem stamp_source_identity (api : VideoApi) (data : value)
    (entries : list value) (st : State) :
  getProp data "list" = Returned (Arr entries) ->
  (exists st',
      handleData api data st = Returned st' /\
      videos st' = map (stamp api) entries /\
      Forall
        (fun kept =>
           exists record,
             kept = Obj record /\
             get_own "source_name" record = Some (Str (name api)) /\
             get_own "source_code" record = Some (Str (id api)) /\
             get_own "api_url" record = Some (Str (url api)))
        (videos st')) /\
  (forall item,
      exists record,
        stamp api item = Obj record /\
        get_own "source_name" record = Some (Str (name api)) /\
        get_own "source_code" record = Some (Str (id api)) /\
        get_own "api_url" record = Some (Str (url api))) /\
  stamp srcApi presetEntry
  = Obj [ ("vod_id", Str "9"); ("source_name", Str "Src");
          ("source_code", Str "s1"); ("api_url", Str "http://x") ] /\
  handleData srcApi listingPayload initialState
  = Returned
      {| videos :=
           [Obj [ ("vod_id", Str "1"); ("vod_name", Str "A");
                  ("source_name", Str "Src"); ("source_code", Str "s1");
                  ("api_url", Str "http://x") ]];
         loading := true;
         pageCount := Number (Int 3);
         currentPage := Int 1 |}.
Proof.
  intros Hl. split; [|split; [|split; reflexivity]].
  - destruct (handleData_array api data entries st Hl) as [pc [_ ->]].
    eexists. split; [reflexivity|]. split; [reflexivity|].
    apply Forall_forall. intros kept Hin.
    assert (exists item, stamp api item = kept) as [item <-].
    { destruct (truthy pc); simpl in Hin; apply in_map_iff in Hin;
        destruct Hin as [item [Hi _]]; eauto. }
    destruct (stamp_fields api item) as [record [H0 [H1 [H2 [H3 _]]]]].
    exists record. auto.
  - intros item.
    destruct (stamp_fields api item) as [record [H0 [H1 [H2 [H3 _]]]]].
    exists record. auto.
Qed.

Lemma stamp_source_identity_witness :
  getProp listingPayload "list"
  = Returned (Arr [Obj [("vod_id", Str "1"); ("vod_name", Str "A")]]) /\
  exists st',
    handleData srcApi listingPayload initialState = Returned st' /\
    videos st'
    = map (stamp srcApi) [Obj [("vod_id", Str "1"); ("vod_name", Str "A")]].
Proof.
  split; [reflexivity|].
  destruct (proj1 (stamp_source_identity srcApi listingPayload
                     [Obj [("vod_id", Str "1"); ("vod_name", Str "A")]]
                     initialState eq_refl)) as [st' [H1 [H2 _]]].
  exists st'. split; assumption.
Defined.

Lemma parseVideo_vod_id (video : node) :
  get_own "vod_id" (parseVideo video)
  = match getElementsByTagName "id" video with
    | element :: _ => Some (Str (textContent element))
    | [] => None
    end.
Proof.
  unfold parseVideo. destruct (playLists video) as [us fs].
  rewrite !get_own_set_other by discriminate.
  change (fold_left (copyField video) fields [])
    with (fold_left (copyField video) (tl fields)
            (copyField video [] ("id", "vod_id"))).
  rewrite copyFields_other
    by (repeat constructor; simpl; discriminate).
  unfold copyField. simpl fst. simpl snd.
  destruct (getElementsByTagName "id" video); [reflexivity|].
  apply get_own_set_same.
Qed.

(** C8 (as the code has it): a record of the XML path has a [vod_id]
    exactly when its [video] element has a descendant [id], whose text
    content, empty or not, it then is; a record of either path keeps, after
    stamping, the [vod_id] its entry had or lacked. *)
Theorem vod_id_as_upstream :
  (forall video,
      get_own "vod_id" (parseVideo video)
      = match getElementsByTagName "id" video with
        | element :: _ => Some (Str (textContent element))
        | [] => None
        end) /\
  (forall api item,
      exists record,
        stamp api item = Obj record /\
        get_own "vod_id" record = get_own "vod_id" (spread item)).
Proof.
  split; [apply parseVideo_vod_id|].
  intros api item.
  destruct (stamp_fields api item) as [record [H0 [_ [_ [_ Hk]]]]].
  exists record. split; [assumption|]. apply Hk; discriminate.
Qed.

(** C8, refuted as stated: a [video] element with no [id] child, and a
    JSON entry with no [vod_id], each give a record with no [vod_id]. *)
Lemma record_without_vod_id :
  forallb vodIdNonEmpty
    (videos (settle (handleData srcApi (parseXmlResponse noIdDoc) initialState)
               initialState)) = false /\
  forallb vodIdNonEmpty
    (videos (settle (handleData srcApi namelessPayload initialState)
               initialState)) = false.
Proof. split; reflexivity. Qed.

Lemma listAttr_default (name : string) (listElement : node) :
  getAttribute name listElement = None \/
  getAttribute name listElement = Some "" ->
  listAttr name listElement = Int 1.
Proof. unfold listAttr. now intros [-> | ->]. Qed.

Lemma listAttr_present (name text : string) (listElement : node) :
  getAttribute name listElement = Some text -> text <> "" ->
  listAttr name listElement = parseInt text.
Proof.
  unfold listAttr, or_string, truthy_string. intros -> Hne.
  apply String.eqb_neq in Hne. now rewrite Hne.
Qed.

Lemma handleData_xml (api : VideoApi) (xmlDoc : Document) (st : State) :
  handleData api (parseXmlResponse xmlDoc) st
  = Returned
      (setVideos
         (map (stamp api) (parseVideos (doc_getElementsByTagName "video" xmlDoc)))
         (match parsePagecount xmlDoc with
          | NaN => st
          | Int z => if (z =? 0)%Z then st else setPageCount (Number (Int z)) st
          | Infinity negative => setPageCount (Number (Infinity negative)) st
          end)).
Proof.
  unfold handleData. simpl.
  destruct (parsePagecount xmlDoc) as [|z|negative]; simpl; try reflexivity.
  destruct (z =? 0)%Z; reflexivity.
Qed.

Lemma listAttr_read (name : string) (listElement : node) :
  listAttr name listElement
  = match getAttribute name listElement with
    | Some text => if String.eqb text "" then Int 1 else parseInt text
    | None => Int 1
    end.
Proof.
  destruct (getAttribute name listElement) as [text|] eqn:Ha.
  - destruct (String.eqb_spec text "") as [->|Hne].
    + apply listAttr_default. now right.
    + now apply listAttr_present.
  - apply listAttr_default. now left.
Qed.

(** C5 (as the code has it): [page] and [pagecount] of the parse result
    are read from the [page] and [pagecount] attributes of the first
    [list] element of the document: each is 1 when there is no such
    element or when its attribute is absent or empty, and otherwise what
    [parseInt] reads in the attribute. The fetch replaces the page count
    only by a [pagecount] that is neither NaN nor 0 and keeps it
    otherwise: the page count it leaves is at least 1 when it was before
    and the parsed [pagecount] is NaN or not negative. *)
Theorem page_defaults (api : VideoApi) (xmlDoc : Document) (st : State) :
  getProp (parseXmlResponse xmlDoc) "page"
  = Returned (Number (parsePage xmlDoc)) /\
  getProp (parseXmlResponse xmlDoc) "pagecount"
  = Returned (Number (parsePagecount xmlDoc)) /\
  (doc_getElementsByTagName "list" xmlDoc = [] ->
   parsePage xmlDoc = Int 1 /\ parsePagecount xmlDoc = Int 1) /\
  (forall listElement others,
      doc_getElementsByTagName "list" xmlDoc = listElement :: others ->
      parsePage xmlDoc
      = match getAttribute "page" listElement with
        | Some text => if String.eqb text "" then Int 1 else parseInt text
        | None => Int 1
        end /\
      parsePagecount xmlDoc
      = match getAttribute "pagecount" listElement with
        | Some text => if String.eqb text "" then Int 1 else parseInt text
        | None => Int 1
        end) /\
  pageCount (settle (handleData api (parseXmlResponse xmlDoc) st) st)
  = match parsePagecount xmlDoc with
    | NaN => pageCount st
    | Int z => if (z =? 0)%Z then pageCount st else Number (Int z)
    | Infinity negative => Number (Infinity negative)
    end /\
  (atLeastOne (pageCount st) = true ->
   (forall z, parsePagecount xmlDoc = Int z -> (0 <= z)%Z) ->
   parsePagecount xmlDoc <> Infinity true ->
   atLeastOne
     (pageCount (settle (handleData api (parseXmlResponse xmlDoc) st) st))
   = true).
Proof.
  split; [reflexivity|]. split; [reflexivity|].
  split; [|split; [|split]].
  - unfold parsePage, parsePagecount. now intros ->.
  - intros listElement others Hl. unfold parsePage, parsePagecount.
    rewrite Hl. split; apply listAttr_read.
  - rewrite handleData_xml. simpl.
    destruct (parsePagecount xmlDoc) as [|z|negative]; try reflexivity.
    destruct (z =? 0)%Z; reflexivity.
  - intros Hst Hz Hinf. rewrite handleData_xml. simpl.
    destruct (parsePagecount xmlDoc) as [|z|negative]; [assumption| |].
    + destruct (z =? 0)%Z eqn:E; [assumption|]. simpl.
      apply Z.eqb_neq in E. specialize (Hz z eq_refl).
      apply Z.leb_le. lia.
    + destruct negative; [congruence | reflexivity].
Qed.

Lemma page_defaults_witness :
  parsePage negativeDoc = Int 1 /\ parsePagecount negativeDoc = Int (-2).
Proof.
  exact (proj1 (proj2 (proj2 (proj2
    (page_defaults srcApi negativeDoc initialState))))
    (hd (Text "") (doc_getElementsByTagName "list" negativeDoc))
    (tl (doc_getElementsByTagName "list" negativeDoc)) eq_refl).
Defined.

(** C5, refuted as stated: non-numeric [page] and [pagecount] attributes
    parse to NaN, not to 1, and a [pagecount] of -2 becomes the page
    count of the component. *)
Lemma pagecount_not_clamped :
  parsePage nonNumericDoc = NaN /\
  parsePagecount nonNumericDoc = NaN /\
  pageCount
    (settle (handleData srcApi (parseXmlResponse negativeDoc) initialState)
       initialState)
  = Number (Int (-2)) /\
  atLeastOne (Number (Int (-2))) = false.
Proof. repeat split; reflexivity. Qed.

(** [startsWith] and [includes], by what the string is made of. *)
Lemma prefix_spec (p s : string) :
  String.prefix p s = true <-> exists rest, s = (p ++ rest)%string.
Proof.
  revert s. induction p as [|a p IH]; intros s.
  - destruct s; simpl; (split; [intros _; eexists; reflexivity | reflexivity]).
  - destruct s as [|b s]; simpl.
    + split; [discriminate | intros [rest H]; discriminate H].
    + destruct (ascii_dec a b) as [->|Hne].
      * rewrite IH. split; intros [rest H]; exists rest;
          [now rewrite H | now injection H].
      * split; [discriminate | intros [rest H]; injection H as H1 _].
        congruence.
Qed.

Lemma str_includes_spec (s sub : string) :
  str_includes s sub = true <-> exists a b, s = (a ++ sub ++ b)%string.
Proof.
  induction s as [|c s IH]; cbn [str_includes].
  - rewrite orb_false_r, prefix_spec. split.
    + intros [rest H]. now exists "", rest.
    + intros [a [b H]]. destruct a; [now exists b | discriminate H].
  - rewrite orb_true_iff, prefix_spec, IH. split.
    + intros [[rest H] | [a [b H]]].
      * now exists "", rest.
      * exists (String c a), b. simpl. now rewrite H.
    + intros [a [b H]]. destruct a as [|c' a].
      * left. now exists b.
      * right. injection H as _ H. now exists a, b.
Qed.

Lemma contentType_xml (header : option string) :
  str_includes (or_string header "") "xml" = true
  <-> exists ct a b, header = Some ct /\ ct = (a ++ "xml" ++ b)%string.
Proof.
  rewrite str_includes_spec. destruct header as [ct|]; unfold or_string.
  - unfold truthy_string.
    destruct (String.eqb_spec ct "") as [->|Hne]; simpl.
    + split.
      * intros [a [b H]]. destruct a; discriminate H.
      * intros [ct [a [b [[= <-] H]]]]. destruct a; discriminate H.
    + split.
      * intros [a [b H]]. exists ct, a, b. auto.
      * intros [ct' [a [b [[= <-] H]]]]. eauto.
  - split.
    + intros [a [b H]]. destruct a; discriminate H.
    + intros [ct [a [b [H _]]]]. discriminate H.
Qed.

(** What [trim] removes in front is white space only, and all of it. *)
Lemma trim_start_skips (n : nat) (ws t : string) :
  String.length ws < n -> all_space ws = true ->
  trim_start (ws ++ t) = trim_start t.
Proof.
  revert ws. induction n as [|n IH]; intros ws Hlen Hws; [lia|].
  destruct ws as [|a s1]; [reflexivity|].
  cbn [all_space] in Hws. cbn [append trim_start]. simpl in Hlen.
  destruct (is_space a); [apply IH; [lia | assumption]|].
  destruct (space_lead a); [|discriminate Hws].
  destruct s1 as [|b s2]; [discriminate Hws|].
  cbn [append]. simpl in Hlen.
  destruct (is_space2 a b); [apply IH; [lia | assumption]|].
  destruct s2 as [|c s3]; [discriminate Hws|].
  cbn [append]. simpl in Hlen.
  apply andb_true_iff in Hws as [H3 Hws]. rewrite H3.
  apply IH; [lia | assumption].
Qed.

Lemma trim_start_split (n : nat) (s : string) :
  String.length s < n ->
  exists ws, all_space ws = true /\ s = (ws ++ trim_start s)%string.
Proof.
  revert s. induction n as [|n IH]; intros s Hlen; [lia|].
  assert (exists ws, all_space ws = true /\ s = (ws ++ s)%string) as Hstop
    by (exists ""; split; reflexivity).
  destruct s as [|a s1]; [assumption|].
  cbn [trim_start]. simpl in Hlen.
  destruct (is_space a) eqn:Ea.
  { destruct (IH s1 ltac:(lia)) as [ws [Hws Hs]].
    exists (String a ws). split; [cbn [all_space]; now rewrite Ea|].
    cbn [append]. f_equal. exact Hs. }
  destruct (space_lead a) eqn:El; [|assumption].
  destruct s1 as [|b s2]; [assumption|]. simpl in Hlen.
  destruct (is_space2 a b) eqn:E2.
  { destruct (IH s2 ltac:(lia)) as [ws [Hws Hs]].
    exists (String a (String b ws)).
    split; [cbn [all_space]; now rewrite Ea, El, E2|].
    cbn [append]. do 2 f_equal. exact Hs. }
  destruct s2 as [|c s3]; [assumption|]. simpl in Hlen.
  destruct (is_space3 a b c) eqn:E3; [|assumption].
  destruct (IH s3 ltac:(lia)) as [ws [Hws Hs]].
  exists (String a (String b (String c ws))).
  split; [cbn [all_space]; now rewrite Ea, El, E2, E3|].
  cbn [append]. do 3 f_equal. exact Hs.
Qed.

Lemma trim_end_split (s : string) :
  exists ws, s = (trim_end s ++ ws)%string.
Proof.
  induction s as [|a s IH]; [now exists ""|].
  cbn [trim_end]. destruct (all_space (String a s)).
  - now exists (String a s).
  - destruct IH as [ws H]. exists ws. cbn [append]. f_equal. exact H.
Qed.

(** The trimmed body starts with the XML declaration exactly when the body
    is white space followed by the declaration. *)
Lemma trim_xml_declaration (text : string) :
  startsWith (trim text) "<?xml" = true
  <-> exists ws rest,
        all_space ws = true /\ text = (ws ++ "<?xml" ++ rest)%string.
Proof.
  unfold startsWith, trim. rewrite prefix_spec. split.
  - intros [rest H].
    destruct (trim_start_split (S (String.length text)) text (le_n _))
      as [ws [Hws Hs]].
    destruct (trim_end_split (trim_start text)) as [ws' H'].
    exists ws, (rest ++ ws')%string. split; [assumption|].
    transitivity (ws ++ trim_start text)%string; [exact Hs|]. f_equal.
    transitivity (trim_end (trim_start text) ++ ws')%string; [exact H'|].
    rewrite H. reflexivity.
  - intros [ws [rest [Hws ->]]].
    rewrite (trim_start_skips (S (String.length ws)) ws _ (le_n _) Hws).
    exists (trim_end rest). reflexivity.
Qed.

Section FetchFacts.

Variable parseFromString : string -> Document.
Variable JSON_parse : string -> option value.

(** The fetch never throws to its caller and always ends the loading. *)
Lemma fetch_clears_loading (api : VideoApi) (fetched : option Response)
    (st : State) :
  loading (fetchCategoryVideos parseFromString JSON_parse api fetched st)
  = false.
Proof. reflexivity. Qed.

Lemma fetch_ok (api : VideoApi) (resp : Response) (st : State) :
  ok resp = true ->
  fetchCategoryVideos parseFromString JSON_parse api (Some resp) st
  = setLoading false
      (settle (bind (parseBody parseFromString JSON_parse api resp)
                 (fun data => handleData api data (setLoading true st)))
         (setLoading true st)).
Proof.
  intros Hok. unfold fetchCategoryVideos, tryBlock. now rewrite Hok.
Qed.

(** C6 (as the code has it): when the payload's [list] is not an array
    the fetch leaves no records, keeps the page count and the current page
    as they were, and throws nothing. On a component just mounted the page
    count it keeps is 1 and the current page is the one the initializer
    read in the session storage: what [parseInt] reads in the saved text,
    and 1 when no page is saved or the saved text is empty. *)
Theorem not_array_gives_empty (api : VideoApi) (resp : Response)
    (data : value) (st : State) :
  ok resp = true ->
  parseBody parseFromString JSON_parse api resp = Returned data ->
  listIsArray data = false ->
  handleData api data (setLoading true st)
  = Returned (setVideos [] (setLoading true st)) /\
  fetchCategoryVideos parseFromString JSON_parse api (Some resp) st
  = {| videos := []; loading := false;
       pageCount := pageCount st; currentPage := currentPage st |} /\
  (forall savedPage,
      fetchCategoryVideos parseFromString JSON_parse api (Some resp)
        (mountState savedPage)
      = {| videos := []; loading := false;
           pageCount := Number (Int 1);
           currentPage :=
             match savedPage with
             | Some saved =>
                 if String.eqb saved "" then Int 1 else parseInt saved
             | None => Int 1
             end |}).
Proof.
  intros Hok Hdata Hlist.
  assert (forall st0,
             handleData api data st0 = Returned (setVideos [] st0)) as Hh
    by (intros st0; now apply handleData_not_array).
  assert (forall st0,
             fetchCategoryVideos parseFromString JSON_parse api (Some resp) st0
             = {| videos := []; loading := false;
                  pageCount := pageCount st0;
                  currentPage := currentPage st0 |}) as Hf.
  { intros st0. rewrite (fetch_ok api resp st0 Hok), Hdata. simpl.
    rewrite (Hh (setLoading true st0)). reflexivity. }
  split; [apply Hh|]. split; [apply Hf|].
  intros savedPage. rewrite Hf. simpl. f_equal.
  unfold initialPage, truthy_string.
  destruct savedPage as [saved|]; [|reflexivity].
  now destruct (String.eqb saved "").
Qed.

(** C7 (as the code has it): the body goes to the XML parser exactly when
    the URL of the source contains the [/xml] marker and the response
    either has a content type containing [xml] or has a body that is white
    space followed by [<?xml]; in every other case, a source with no
    marker in particular, it goes to the JSON parser whatever the response
    says. *)
Theorem parser_follows_marker (api : VideoApi) (resp : Response) :
  (selectedParser api resp = XmlParser <->
   (exists a b, url api = (a ++ "/xml" ++ b)%string) /\
   ((exists ct a b,
        contentType resp = Some ct /\ ct = (a ++ "xml" ++ b)%string) \/
    (exists ws rest,
        all_space ws = true /\
        body resp = (ws ++ "<?xml" ++ rest)%string))) /\
  (selectedParser api resp = XmlParser ->
   parseBody parseFromString JSON_parse api resp
   = Returned (parseXmlResponse (parseFromString (body resp)))) /\
  (selectedParser api resp <> XmlParser ->
   selectedParser api resp = JsonParser /\
   parseBody parseFromString JSON_parse api resp
   = json_outcome (JSON_parse (body resp))) /\
  ((forall a b, url api <> (a ++ "/xml" ++ b)%string) ->
   selectedParser api resp = JsonParser).
Proof.
  assert (selectedParser api resp = XmlParser <->
          str_includes (url api) "/xml" = true /\ responseIsXml resp = true)
    as Hsel.
  { unfold selectedParser.
    destruct (str_includes (url api) "/xml"), (responseIsXml resp);
      split; try tauto; try discriminate; intros [H1 H2]; discriminate. }
  split; [|split; [|split]].
  - rewrite Hsel. unfold responseIsXml.
    rewrite orb_true_iff, str_includes_spec, contentType_xml,
      trim_xml_declaration.
    reflexivity.
  - unfold parseBody. now intros ->.
  - intros Hne. unfold parseBody.
    destruct (selectedParser api resp); [congruence | split; reflexivity].
  - intros Hurl. unfold selectedParser.
    destruct (str_includes (url api) "/xml") eqn:E; [|reflexivity].
    apply str_includes_spec in E as [a [b E]]. now apply Hurl in E.
Qed.

End FetchFacts.

Lemma not_array_gives_empty_witness :
  ok jsonResponse = true /\
  listIsArray malformedPayload = false /\
  fetchCategoryVideos (fun _ => bareDoc) (fun _ => Some malformedPayload)
    srcApi (Some jsonResponse) (mountState (Some "3"))
  = {| videos := []; loading := false;
       pageCount := Number (Int 1); currentPage := Int 3 |}.
Proof.
  split; [reflexivity|]. split; [reflexivity|].
  exact (proj2 (proj2
    (not_array_gives_empty (fun _ => bareDoc) (fun _ => Some malformedPayload)
       srcApi jsonResponse malformedPayload initialState
       eq_refl eq_refl eq_refl)) (Some "3")).
Defined.

(** C6, refuted as stated: once a response has set the page count to 5,
    a payload whose [list] is not an array leaves it at 5, not 1; and on a
    component mounted with page 3 saved, it leaves the current page at 3. *)
Lemma not_array_keeps_pageCount :
  (exists st,
      handleData srcApi fivePagesPayload initialState = Returned st /\
      listIsArray malformedPayload = false /\
      pageCount (settle (handleData srcApi malformedPayload st) st)
      = Number (Int 5) /\
      videos (settle (handleData srcApi malformedPayload st) st) = []) /\
  currentPage
    (fetchCategoryVideos (fun _ => bareDoc) (fun _ => Some malformedPayload)
       srcApi (Some jsonResponse) (mountState (Some "3")))
  = Int 3.
Proof. split; [eexists; repeat split; reflexivity | reflexivity]. Qed.

Lemma parser_follows_marker_witness :
  selectedParser markedApi xmlResponse = XmlParser /\
  parseBody (fun _ => bareDoc) (fun _ => None) markedApi xmlResponse
  = Returned (parseXmlResponse bareDoc).
Proof.
  split; [reflexivity|].
  exact (proj1 (proj2
    (parser_follows_marker (fun _ => bareDoc) (fun _ => None)
       markedApi xmlResponse)) eq_refl).
Defined.

(** C7, refuted as stated: a response with an XML content type and an
    XML declaration, from a source whose URL has no marker, goes to the
    JSON parser. *)
Lemma unmarked_xml_parsed_as_json :
  str_includes (url plainApi) "/xml" = false /\
  responseIsXml xmlResponse = true /\
  selectedParser plainApi xmlResponse = JsonParser /\
  selectedParser plainApi xmlResponse
  <> (if responseIsXml xmlResponse then XmlParser else JsonParser).
Proof. repeat split; try reflexivity. vm_compute. discriminate. Qed.

(** A no-break space before the declaration is trimmed like any other
    white space. *)
Lemma declaration_after_nbsp :
  selectedParser markedApi
    {| ok := true; contentType := None;
       body := String (ascii_of_nat 194)
                 (String (ascii_of_nat 160) "<?xml version='1.0'?><rss/>") |}
  = XmlParser.
Proof. reflexivity. Qed.

End PipelineFacts.

(** ** More on the grid layout selector *)

Module GridMore.
Import GridLayout GridTable GridFacts.

Lemma includes_divides (count cols : nat) :
  1 <= count -> 1 <= cols ->
  includes (findDivisors count) cols = (count mod cols =? 0).
Proof.
  intros Hc Hk.
  destruct (count mod cols =? 0) eqn:E.
  - apply includes_In, findDivisors_spec. apply Nat.eqb_eq in E.
    split; [|assumption]. split; [assumption|].
    destruct (le_lt_dec cols count) as [Hle|Hlt]; [assumption|].
    rewrite Nat.mod_small in E by assumption. lia.
  - apply Nat.eqb_neq in E.
    destruct (includes (findDivisors count) cols) eqn:I; [|reflexivity].
    apply includes_In, findDivisors_spec in I. tauto.
Qed.

(** The empty cells of the last row: [Math.ceil(count / cols) * cols - count]. *)
Lemma slack_mod (count cols : nat) :
  0 < cols ->
  ceil_div count cols * cols - count
  = if count mod cols =? 0 then 0 else cols - count mod cols.
Proof.
  intros Hc. unfold ceil_div.
  pose proof (Nat.div_mod_eq count cols) as Hdm.
  pose proof (Nat.mod_upper_bound count cols ltac:(lia)) as Hub.
  destruct (count mod cols =? 0) eqn:Hz.
  - apply Nat.eqb_eq in Hz. nia.
  - nia.
Qed.

Lemma findDivisors_from_sorted (n k i : nat) (acc : list nat) :
  StronglySorted lt acc ->
  Forall (fun c => c < i) acc ->
  StronglySorted lt (findDivisors_from n i k acc).
Proof.
  revert i acc. induction k as [|k IH]; intros i acc Hs Hb; simpl.
  - assumption.
  - apply IH.
    + destruct (n mod i =? 0); [|assumption].
      clear IH. induction Hs as [|x l Hs IHs Hx]; simpl.
      * repeat constructor.
      * inversion Hb; subst. constructor; [auto|].
        apply Forall_app. split; [assumption|]. repeat constructor. assumption.
    + destruct (n mod i =? 0).
      * apply Forall_app. split.
        -- eapply Forall_impl; [|exact Hb]. simpl. lia.
        -- repeat constructor.
      * eapply Forall_impl; [|exact Hb]. simpl. lia.
Qed.

Lemma relaxed_fit_nat (count cols : nat) :
  0 < cols ->
  relaxed_fit count cols
  = (count mod cols =? 0) || (cols mod count =? 0)
    || (ceil_div count cols * cols - count <=? 2).
Proof.
  intros Hc. unfold relaxed_fit. f_equal.
  pose proof (ceil_div_bounds count cols Hc) as Hb.
  destruct (ceil_div count cols * cols - count <=? 2) eqn:E.
  - apply Nat.leb_le in E. apply Z.leb_le. lia.
  - apply Nat.leb_gt in E. apply Z.leb_gt. lia.
Qed.

Ltac mod_facts count :=
  pose proof (Nat.div_mod_eq count 2);
  pose proof (Nat.mod_upper_bound count 2 ltac:(lia));
  pose proof (Nat.div_mod_eq count 3);
  pose proof (Nat.mod_upper_bound count 3 ltac:(lia));
  pose proof (Nat.div_mod_eq count 4);
  pose proof (Nat.mod_upper_bound count 4 ltac:(lia));
  pose proof (Nat.div_mod_eq count 5);
  pose proof (Nat.mod_upper_bound count 5 ltac:(lia));
  pose proof (Nat.div_mod_eq count 6);
  pose proof (Nat.mod_upper_bound count 6 ltac:(lia)).

Lemma exit_table (count : nat) :
  1 <= count -> getOptimalColumns_exit count = tableExit count.
Proof.
  intros Hc.
  destruct (le_lt_dec count 6) as [Hsmall|Hbig].
  { assert (count = 1 \/ count = 2 \/ count = 3 \/ count = 4 \/ count = 5
            \/ count = 6) as Hcases by lia.
    destruct Hcases as [->|[->|[->|[->|[->| ->]]]]]; reflexivity. }
  unfold getOptimalColumns_exit, tableExit.
  destruct (count =? 0) eqn:Hz; [apply Nat.eqb_eq in Hz; lia|].
  unfold pass1, preferredCols. cbn [first_match].
  rewrite !includes_divides by lia.
  destruct (count mod 4 =? 0) eqn:E4; [reflexivity|].
  destruct (count mod 5 =? 0) eqn:E5; [reflexivity|].
  destruct (count mod 6 =? 0) eqn:E6; [reflexivity|].
  destruct (count mod 3 =? 0) eqn:E3; [reflexivity|].
  destruct (count mod 2 =? 0) eqn:E2; [reflexivity|].
  apply Nat.eqb_neq in E4, E5, E6, E3, E2.
  unfold pass2, preferredCols. cbn [first_match].
  rewrite (relaxed_fit_nat count 4), (relaxed_fit_nat count 5),
    (relaxed_fit_nat count 6) by lia.
  rewrite !slack_mod by lia.
  rewrite (Nat.mod_small 4 count), (Nat.mod_small 5 count),
    (Nat.mod_small 6 count) by lia.
  apply Nat.eqb_neq in E4, E5, E6. rewrite E4, E5, E6. cbn [orb Nat.eqb].
  assert ((count =? 1) = false) as -> by (apply Nat.eqb_neq; lia).
  cbn [orb].
  mod_facts count.
  apply Nat.eqb_neq in E4, E5, E6.
  destruct (count mod 4 =? 3) eqn:M4.
  - apply Nat.eqb_eq in M4. rewrite M4. reflexivity.
  - apply Nat.eqb_neq in M4.
    assert ((4 - count mod 4 <=? 2) = false) as ->
      by (apply Nat.leb_gt; lia).
    destruct (3 <=? count mod 5) eqn:M5.
    + apply Nat.leb_le in M5.
      assert ((5 - count mod 5 <=? 2) = true) as ->
        by (apply Nat.leb_le; lia).
      reflexivity.
    + apply Nat.leb_gt in M5.
      assert ((5 - count mod 5 <=? 2) = false) as ->
        by (apply Nat.leb_gt; lia).
      destruct (count mod 6 =? 5) eqn:M6.
      * apply Nat.eqb_eq in M6. rewrite M6. reflexivity.
      * apply Nat.eqb_neq in M6.
        assert ((6 - count mod 6 <=? 2) = false) as ->
          by (apply Nat.leb_gt; lia).
        rewrite relaxed_fit_3. reflexivity.
Qed.

(** X1: [findDivisors n] lists exactly the divisors of [n] between 1 and
    [n], in strictly increasing order, so without repeats. *)
Theorem findDivisors_sorted_complete (n : nat) :
  StronglySorted lt (findDivisors n) /\
  NoDup (findDivisors n) /\
  forall c, In c (findDivisors n) <-> 1 <= c <= n /\ n mod c = 0.
Proof.
  assert (StronglySorted lt (findDivisors n)) as Hs
    by (apply findDivisors_from_sorted; constructor).
  split; [assumption|]. split; [|apply findDivisors_spec].
  induction Hs as [|x l Hs IH Hx]; constructor; [|assumption].
  intros Hin. rewrite Forall_forall in Hx. specialize (Hx x Hin). lia.
Qed.

(** X2: for [count >= 1] the column count chosen depends on the
    remainders of [count] alone: the first of 4, 5, 6, 3, 2 that divides
    it; failing that 4 when [count] is 1 or leaves 3 modulo 4, else 5 when
    it leaves 3 or 4 modulo 5, else 6 when it leaves 5 modulo 6, else 3.
    Candidate 2 is never chosen by the relaxed pass. *)
Theorem getOptimalColumns_by_remainders (count : nat) :
  1 <= count ->
  getOptimalColumns_exit count = tableExit count /\
  getOptimalColumns count = exit_token (tableExit count) /\
  getOptimalColumns_exit count <> ExitRelaxed 2.
Proof.
  intros Hc. rewrite getOptimalColumns_exit_token, (exit_table count Hc).
  split; [reflexivity|]. split; [reflexivity|].
  unfold tableExit.
  repeat match goal with
         | |- context [if ?b then _ else _] => destruct b
         end; discriminate.
Qed.

Lemma getOptimalColumns_by_remainders_witness :
  1 <= 41 /\ getOptimalColumns_exit 41 = ExitRelaxed 6.
Proof.
  split; [lia|].
  exact (proj1 (getOptimalColumns_by_remainders 41 ltac:(lia))).
Defined.



Lemma chosen_candidate (count : nat) :
  1 <= count ->
  exists cols,
    In cols [2; 3; 4; 5; 6] /\ getOptimalColumns count = getResponsiveCols cols.
Proof.
  intros Hc. rewrite getOptimalColumns_exit_token, (exit_table count Hc).
  unfold tableExit.
  repeat match goal with
         | |- context [if ?b then _ else _] => destruct b
         end;
    simpl exit_token; eexists; (split; [|reflexivity]); simpl; auto 8.
Qed.

(** The class list chosen for a non-empty result is an entry of [colsMap],
    the one of a candidate, and not the template string. *)
Lemma chosen_cols (count : nat) :
  1 <= count ->
  exists cols,
    In cols [2; 3; 4; 5; 6] /\
    colsMap_get colsMap cols = Some (getOptimalColumns count) /\
    getOptimalColumns count <> template_cols cols.
Proof.
  intros Hc. destruct (chosen_candidate count Hc) as [cols [Hin Heq]].
  exists cols. split; [assumption|]. rewrite Heq.
  assert (In cols preferredCols) as Hp
    by (unfold preferredCols; simpl in *; intuition).
  destruct (preferred_entry cols Hp) as [He [Ht _]]. now split.
Qed.

End GridMore.

(** ** More on the XML listing parser *)

Module XmlMore.
Import Js Dom Listing Fixtures XmlShape XmlFacts.

Lemma fields_distinct : NoDup (map snd fields).
Proof.
  unfold fields. simpl.
  repeat (constructor; [simpl; intuition discriminate|]). constructor.
Qed.

Lemma copyFields_lookup (video : node) (fs : list (string * string)) :
  NoDup (map snd fs) ->
  forall tag field acc,
    In (tag, field) fs ->
    get_own field (fold_left (copyField video) fs acc)
    = match getElementsByTagName tag video with
      | element :: _ => Some (Str (textContent element))
      | [] => get_own field acc
      end.
Proof.
  induction fs as [|[t f] fs IH]; intros Hnd tag field acc Hin;
    [destruct Hin|].
  simpl in Hnd. inversion Hnd as [|? ? Hnotin Hnd']; subst.
  simpl. destruct Hin as [Heq|Hin].
  - inversion Heq; subst. rewrite copyFields_other.
    + unfold copyField. simpl.
      destruct (getElementsByTagName tag video); [reflexivity|].
      apply get_own_set_same.
    + apply Forall_forall. intros tf Htf Hsame. apply Hnotin.
      rewrite <- Hsame. now apply in_map.
  - rewrite (IH Hnd' tag field _ Hin).
    destruct (getElementsByTagName tag video); [|reflexivity].
    apply copyField_other. simpl. intros ->. apply Hnotin.
    change field with (snd (tag, field)). now apply in_map.
Qed.

Lemma set_prop_keys_old (k : string) (v : value) (o : props) :
  In k (map fst o) -> map fst (set_prop k v o) = map fst o.
Proof.
  induction o as [|[k' v'] o IH]; simpl; [tauto|].
  intros Hin. destruct (String.eqb_spec k' k) as [->|Hne]; [reflexivity|].
  simpl. f_equal. apply IH. destruct Hin; [contradiction|assumption].
Qed.

Lemma set_prop_keys_new (k : string) (v : value) (o : props) :
  ~ In k (map fst o) -> map fst (set_prop k v o) = map fst o ++ [k].
Proof.
  induction o as [|[k' v'] o IH]; simpl; [reflexivity|].
  intros Hnotin. destruct (String.eqb_spec k' k) as [->|Hne]; [tauto|].
  simpl. f_equal. apply IH. tauto.
Qed.

Lemma copyFields_keys (video : node) (fs : list (string * string)) :
  NoDup (map snd fs) ->
  forall acc,
    (forall tf, In tf fs -> ~ In (snd tf) (map fst acc)) ->
    map fst (fold_left (copyField video) fs acc)
    = map fst acc ++ map snd (filter (tagPresent video) fs).
Proof.
  induction fs as [|[t f] fs IH]; intros Hnd acc Hfresh; simpl.
  - now rewrite app_nil_r.
  - simpl in Hnd. inversion Hnd as [|? ? Hnotin Hnd']; subst.
    unfold tagPresent at 1, copyField at 2. simpl.
    destruct (getElementsByTagName t video) as [|element rest].
    + apply IH; [assumption|]. intros tf Htf. apply Hfresh. now right.
    + rewrite IH; [|assumption|].
      * rewrite set_prop_keys_new by (apply (Hfresh (t, f)); now left).
        now rewrite <- app_assoc.
      * intros tf Htf.
        rewrite set_prop_keys_new by (apply (Hfresh (t, f)); now left).
        rewrite in_app_iff. simpl. intros [Hacc|[Hsame|[]]].
        -- apply (Hfresh tf); [now right | assumption].
        -- apply Hnotin. rewrite Hsame. now apply in_map.
Qed.

Lemma or_string_nonempty (a : option string) (b : string) :
  b <> "" -> or_string a b <> "".
Proof.
  intros Hb. unfold or_string, truthy_string.
  destruct a as [s|]; [|assumption].
  destruct (String.eqb_spec s ""); simpl; assumption.
Qed.

Lemma join_empty (sep : string) (l : list string) :
  Forall (fun s => s <> "") l -> join sep l = "" -> l = [].
Proof.
  destruct l as [|x l]; [reflexivity|].
  intros Hne Hj. inversion Hne as [|? ? Hx _]; subst. exfalso. apply Hx.
  destruct l as [|y l]; simpl in Hj; [assumption|].
  destruct x; [reflexivity | discriminate].
Qed.

(** X4: each of the ten fields of a parsed record is the text content of
    the first descendant of the [video] element with the field's tag, and
    is absent when there is no such descendant. *)
Theorem fields_follow_tags (video : node) (tag field : string) :
  In (tag, field) fields ->
  get_own field (parseVideo video)
  = match getElementsByTagName tag video with
    | element :: _ => Some (Str (textContent element))
    | [] => None
    end.
Proof.
  intros Hin. unfold parseVideo. destruct (playLists video) as [us fs].
  assert (field <> "vod_play_url" /\ field <> "vod_play_from") as [H1 H2].
  { unfold fields in Hin. simpl in Hin.
    repeat (destruct Hin as [Hin|Hin];
            [inversion Hin; subst; split; discriminate|]).
    destruct Hin. }
  rewrite !get_own_set_other by congruence.
  now rewrite (copyFields_lookup video fields fields_distinct tag field []).
Qed.

Lemma fields_follow_tags_witness :
  In ("note", "vod_remarks") fields /\
  get_own "vod_remarks" (parseVideo twoDdVideo) = None.
Proof.
  split; [simpl; tauto|].
  exact (fields_follow_tags twoDdVideo "note" "vod_remarks"
           ltac:(simpl; tauto)).
Defined.

(** X5: the keys of a parsed record are the field names of the tags the
    [video] element has, in the order of the table, followed by
    [vod_play_url] and [vod_play_from], which are always there; no key is
    repeated. *)
Theorem parseVideo_keys (video : node) :
  map fst (parseVideo video) = recordKeys video /\
  NoDup (map fst (parseVideo video)).
Proof.
  assert (map fst (parseVideo video) = recordKeys video) as Hk.
  { unfold parseVideo, recordKeys. destruct (playLists video) as [us fs].
    assert (map fst (fold_left (copyField video) fields [])
            = map snd (filter (tagPresent video) fields)) as Hf
      by (rewrite copyFields_keys;
          [reflexivity | apply fields_distinct | intros tf _ []]).
    assert (forall k, In k (map snd (filter (tagPresent video) fields)) ->
                      In k (map snd fields)) as Hsub.
    { intros k Hk. apply in_map_iff in Hk. destruct Hk as [tf [<- Htf]].
      apply filter_In in Htf. apply in_map. tauto. }
    rewrite set_prop_keys_new.
    - rewrite set_prop_keys_new.
      + rewrite Hf, <- app_assoc. reflexivity.
      + rewrite Hf. intros Hin. apply Hsub in Hin. simpl in Hin.
        repeat (destruct Hin as [Hin|Hin]; [discriminate|]). destruct Hin.
    - rewrite set_prop_keys_new.
      + rewrite Hf, in_app_iff. intros [Hin|[Hin|[]]]; [|discriminate].
        apply Hsub in Hin. simpl in Hin.
        repeat (destruct Hin as [Hin|Hin]; [discriminate|]). destruct Hin.
      + rewrite Hf. intros Hin. apply Hsub in Hin. simpl in Hin.
        repeat (destruct Hin as [Hin|Hin]; [discriminate|]). destruct Hin. }
  split; [assumption|]. rewrite Hk. unfold recordKeys.
  assert (forall fs, NoDup (map snd fs) ->
                     NoDup (map snd (filter (tagPresent video) fs))) as Hnd.
  { induction fs as [|tf fs IH]; simpl; intros Hfs; [constructor|].
    inversion Hfs as [|? ? Hnotin Hfs']; subst.
    destruct (tagPresent video tf); [|auto]. simpl. constructor; [|auto].
    intros Hin. apply Hnotin. apply in_map_iff in Hin.
    destruct Hin as [tf' [Hs Htf']]. apply filter_In in Htf'.
    rewrite <- Hs. apply in_map. tauto. }
  apply NoDup_app.
  - apply Hnd, fields_distinct.
  - repeat constructor; simpl; intuition discriminate.
  - intros k Hin Hplay. apply in_map_iff in Hin.
    destruct Hin as [tf [<- Htf]]. apply filter_In in Htf.
    destruct Htf as [Htf _]. unfold fields in Htf. simpl in Htf, Hplay.
    repeat (destruct Htf as [Htf|Htf];
            [subst tf; simpl in Hplay; intuition discriminate|]).
    destruct Htf.
Qed.

(** X6: no entry of [playUrls] or [playFroms] is the empty string, so
    [vod_play_url] is empty exactly when no visited [dd] has text. *)
Theorem play_entries_nonempty (video : node) :
  Forall (fun urls => urls <> "") (fst (playLists video)) /\
  Forall (fun flag => flag <> "") (snd (playLists video)) /\
  (get_own "vod_play_url" (parseVideo video) = Some (Str "") <->
   filter ddHasText (visitedDd video) = []).
Proof.
  assert (Forall (fun urls => urls <> "") (fst (playLists video))) as Hu.
  { rewrite playLists_filter. simpl. apply Forall_forall. intros u Hin.
    apply in_map_iff in Hin. destruct Hin as [dd [<- Hdd]].
    apply filter_In in Hdd. destruct Hdd as [_ Ht].
    unfold ddHasText, truthy_string in Ht.
    intros Hempty. rewrite Hempty in Ht. discriminate. }
  split; [assumption|]. split.
  - rewrite playLists_filter. simpl. apply Forall_forall. intros f Hin.
    apply in_map_iff in Hin. destruct Hin as [dd [<- _]].
    apply or_string_nonempty. discriminate.
  - assert (get_own "vod_play_url" (parseVideo video)
            = Some (Str (join "$$$" (fst (playLists video))))) as ->.
    { unfold parseVideo. destruct (playLists video) as [us fs]. simpl.
      rewrite get_own_set_other by discriminate. apply get_own_set_same. }
    split.
    + intros [= Hj]. apply join_empty in Hj; [|assumption].
      rewrite playLists_filter in Hj. simpl in Hj.
      now apply map_eq_nil in Hj.
    + intros Hnone. rewrite playLists_filter, Hnone. reflexivity.
Qed.

End XmlMore.

(** ** More on the fetch *)

Module FetchMore.
Import Js Dom Listing Fixtures XmlFacts PipelineFacts GridLayout Render.

(** What the [if] statement on [data] does to the state: a new list, and
    at most a new page count, which is then truthy. *)
Lemma handleData_frame (api : VideoApi) (data : value) :
  exists vs opc,
    match opc with
    | Some pc => truthy pc = true
    | None => True
    end /\
    forall st,
      handleData api data st
      = Returned (setVideos vs
                    (match opc with
                     | Some pc => setPageCount pc st
                     | None => st
                     end)).
Proof.
  unfold handleData. destruct (truthy data) eqn:T.
  - destruct (getProp_truthy data "list" T) as [l ->]. simpl.
    destruct (isArray l).
    + destruct (getProp_truthy data "pagecount" T) as [pc ->]. simpl.
      destruct (truthy pc) eqn:Tp.
      * exists (map (stamp api) (array_items l)), (Some pc). auto.
      * exists (map (stamp api) (array_items l)), None. auto.
    + exists [], None. auto.
  - exists [], None. auto.
Qed.

Section FetchMoreFacts.

Variable parseFromString : string -> Document.
Variable JSON_parse : string -> option value.

(** X7: when [fetch] rejects, the response is not ok, or the parser
    throws on the body, the fetch leaves an empty list, ends the loading
    and keeps the page count and the current page. *)
Theorem fetch_failure_empties (api : VideoApi) (fetched : option Response)
    (st : State) :
  fetched = None \/
  (exists resp,
      fetched = Some resp /\
      (ok resp = false \/
       parseBody parseFromString JSON_parse api resp = Thrown)) ->
  fetchCategoryVideos parseFromString JSON_parse api fetched st
  = {| videos := []; loading := false;
       pageCount := pageCount st; currentPage := currentPage st |}.
Proof.
  intros [-> | [resp [-> Hfail]]]; [reflexivity|].
  unfold fetchCategoryVideos, tryBlock.
  destruct (ok resp) eqn:Hok; simpl; [|reflexivity].
  destruct Hfail as [Hno | ->]; [discriminate | reflexivity].
Qed.

(** X8: the list a fetch leaves does not depend on the list, the loading
    flag or the page count it found; the fetch never changes the current
    page, always ends the loading, and leaves the page count as it was or
    sets it to a truthy value. *)
Theorem fetch_replaces_list (api : VideoApi) (fetched : option Response)
    (st st' : State) :
  videos (fetchCategoryVideos parseFromString JSON_parse api fetched st)
  = videos (fetchCategoryVideos parseFromString JSON_parse api fetched st') /\
  currentPage (fetchCategoryVideos parseFromString JSON_parse api fetched st)
  = currentPage st /\
  loading (fetchCategoryVideos parseFromString JSON_parse api fetched st)
  = false /\
  (pageCount (fetchCategoryVideos parseFromString JSON_parse api fetched st)
   = pageCount st \/
   truthy
     (pageCount (fetchCategoryVideos parseFromString JSON_parse api fetched st))
   = true).
Proof.
  unfold fetchCategoryVideos, tryBlock.
  destruct fetched as [resp|]; [|simpl; auto].
  destruct (ok resp); simpl; [|auto].
  destruct (parseBody parseFromString JSON_parse api resp) as [data|]; simpl;
    [|auto].
  destruct (handleData_frame api data) as [vs [opc [Hpc Hh]]].
  rewrite !Hh. destruct opc as [pc|]; simpl; auto.
Qed.

(** X10: from a source with the [/xml] marker, an ok response that is
    XML leaves one stamped record per [video] element of the parsed
    document, in document order, and replaces the page count only by a
    parsed [pagecount] that is neither NaN nor 0. *)
Theorem xml_fetch_records (api : VideoApi) (resp : Response) (st : State) :
  ok resp = true ->
  str_includes (url api) "/xml" = true ->
  responseIsXml resp = true ->
  videos (fetchCategoryVideos parseFromString JSON_parse api (Some resp) st)
  = map (fun video => stamp api (Obj (parseVideo video)))
      (doc_getElementsByTagName "video" (parseFromString (body resp))) /\
  List.length
    (videos (fetchCategoryVideos parseFromString JSON_parse api (Some resp) st))
  = doc_count_tag "video" (parseFromString (body resp)) /\
  pageCount (fetchCategoryVideos parseFromString JSON_parse api (Some resp) st)
  = match parsePagecount (parseFromString (body resp)) with
    | NaN => pageCount st
    | Int z => if (z =? 0)%Z then pageCount st else Number (Int z)
    | Infinity negative => Number (Infinity negative)
    end.
Proof.
  intros Hok Hurl Hxml.
  rewrite (fetch_ok parseFromString JSON_parse api resp st Hok).
  unfold parseBody, selectedParser. rewrite Hurl, Hxml. simpl bind.
  rewrite handleData_xml, parseVideos_map, map_map. simpl.
  split; [reflexivity|]. split.
  - rewrite length_map. apply doc_count.
  - destruct (parsePagecount (parseFromString (body resp))) as [|z|negative];
      try reflexivity.
    destruct (z =? 0)%Z; reflexivity.
Qed.

(** X11: once a fetch is over the component never shows the skeleton; it
    renders nothing exactly when the list is empty, and otherwise a grid
    of all the records whose class list is the entry of [colsMap] for 2,
    3, 4, 5 or 6 columns, never the template string. *)
Theorem render_after_fetch (api : VideoApi) (fetched : option Response)
    (st : State) :
  render (fetchCategoryVideos parseFromString JSON_parse api fetched st)
  <> Skeleton /\
  (render (fetchCategoryVideos parseFromString JSON_parse api fetched st)
   = Nothing <->
   videos (fetchCategoryVideos parseFromString JSON_parse api fetched st)
   = []) /\
  (videos (fetchCategoryVideos parseFromString JSON_parse api fetched st)
   <> [] ->
   exists cols gridCols,
     In cols [2; 3; 4; 5; 6] /\
     colsMap_get colsMap cols = Some gridCols /\
     gridCols <> template_cols cols /\
     render (fetchCategoryVideos parseFromString JSON_parse api fetched st)
     = Grid gridCols
         (videos
            (fetchCategoryVideos parseFromString JSON_parse api fetched st))).
Proof.
  pose proof (fetch_clears_loading parseFromString JSON_parse api fetched st)
    as Hl.
  unfold render. rewrite Hl.
  destruct (videos
              (fetchCategoryVideos parseFromString JSON_parse api fetched st))
    as [|v vs] eqn:Hv; simpl List.length.
  - simpl. split; [discriminate|]. split; [tauto|]. intros H. now destruct H.
  - cbn [Nat.eqb]. split; [discriminate|]. split.
    + split; discriminate.
    + intros _.
      destruct (GridMore.chosen_cols (S (List.length vs)) ltac:(lia))
        as [cols [Hin [Hmap Hne]]].
      exists cols, (getOptimalColumns (S (List.length vs))). auto.
Qed.

End FetchMoreFacts.

Lemma fetch_failure_empties_witness :
  fetchCategoryVideos (fun _ => bareDoc) (fun _ => None)
    srcApi (Some jsonResponse) initialState
  = {| videos := []; loading := false;
       pageCount := Number (Int 1); currentPage := Int 1 |}.
Proof.
  apply (fetch_failure_empties (fun _ => bareDoc) (fun _ => None)
           srcApi (Some jsonResponse) initialState).
  right. exists jsonResponse. split; [reflexivity|]. right. reflexivity.
Defined.

Lemma xml_fetch_records_witness :
  ok xmlResponse = true /\
  List.length
    (videos (fetchCategoryVideos (fun _ => bareDoc) (fun _ => None)
               markedApi (Some xmlResponse) initialState))
  = 1.
Proof.
  split; [reflexivity|].
  exact (proj1 (proj2
    (xml_fetch_records (fun _ => bareDoc) (fun _ => None)
       markedApi xmlResponse initialState eq_refl eq_refl eq_refl))).
Defined.

(** X9: stamping an object entry keeps every field other than
    [source_name], [source_code] and [api_url] as the entry had it; an
    entry that is [undefined], [null], a boolean or a number gives a
    record with the three source fields alone. *)
Theorem stamp_keeps_entry_fields (api : VideoApi) (entry : props) (k : string) :
  k <> "source_name" -> k <> "source_code" -> k <> "api_url" ->
  (exists record,
      stamp api (Obj entry) = Obj record /\
      get_own k record = get_own k entry) /\
  (forall item,
      item = Undefined \/ item = Null \/
      (exists b, item = Bool b) \/ (exists n, item = Number n) ->
      stamp api item
      = Obj [ ("source_name", Str (name api));
              ("source_code", Str (id api));
              ("api_url", Str (url api)) ]).
Proof.
  intros H1 H2 H3. split.
  - destruct (stamp_fields api (Obj entry)) as [record [H0 [_ [_ [_ Hk]]]]].
    exists record. split; [assumption|]. now apply Hk.
  - intros item [->|[->|[[b ->]|[n ->]]]]; reflexivity.
Qed.

Lemma stamp_keeps_entry_fields_witness :
  exists record,
    stamp srcApi presetEntry = Obj record /\
    get_own "vod_id" record = Some (Str "9").
Proof.
  exact (proj1 (stamp_keeps_entry_fields srcApi
                  [ ("vod_id", Str "9"); ("source_name", Str "other");
                    ("source_code", Str "zz"); ("api_url", Str "http://other") ]
                  "vod_id"
                  ltac:(discriminate) ltac:(discriminate) ltac:(discriminate))).
Defined.

End FetchMore.

(** ** Properties of the page controls *)

Module PagerFacts.
Import Js WebStorage Pager.

Lemma getItem_setItem_same (key value : string) (s : storage) :
  getItem key (setItem key value s) = Some value.
Proof.
  induction s as [|[k v] s IH]; simpl.
  - now rewrite String.eqb_refl.
  - destruct (String.eqb k key) eqn:E; simpl.
    + now rewrite String.eqb_refl.
    + now rewrite E.
Qed.

Lemma getItem_setItem_other (key key' value : string) (s : storage) :
  key <> key' -> getItem key' (setItem key value s) = getItem key' s.
Proof.
  intros Hne. induction s as [|[k v] s IH]; simpl.
  - apply String.eqb_neq in Hne. now rewrite Hne.
  - destruct (String.eqb k key) eqn:E; simpl.
    + apply String.eqb_eq in E. subst k.
      apply String.eqb_neq in Hne. now rewrite Hne.
    + destruct (String.eqb k key'); [reflexivity | exact IH].
Qed.

(** Reading the digits a decimal number prints as. *)
Ltac digit_step :=
  cbn [NilEmpty.string_of_uint read_digits];
  match goal with
  | |- context [radix_digit 10 ?c] =>
      let v := eval vm_compute in (radix_digit 10 c) in
      change (radix_digit 10 c) with v
  end;
  cbv iota beta.

Lemma read_digits_uint (d : Decimal.uint) (a : Z) :
  read_digits 10 (NilEmpty.string_of_uint d) (Some a)
  = Some (Z.of_N (Unsigned.of_lu (Decimal.rev d))
          + a * 10 ^ Z.of_N (Unsigned.usize d))%Z.
Proof.
  revert a.
  induction d as [|d IH|d IH|d IH|d IH|d IH|d IH|d IH|d IH|d IH|d IH];
    intros a;
    [ simpl; f_equal; ring
    | unfold Decimal.rev; cbn [Decimal.revapp];
      rewrite Unsigned.of_lu_revapp; cbn [Unsigned.usize Unsigned.of_lu];
      digit_step; rewrite IH; f_equal;
      rewrite N2Z.inj_add, N2Z.inj_mul, N2Z.inj_pow, N2Z.inj_succ;
      rewrite Z.pow_succ_r by apply N2Z.is_nonneg;
      simpl Z.of_nat; simpl Z.of_N; ring .. ].
Qed.

Lemma read_digits_start (d : Decimal.uint) :
  d <> Decimal.Nil ->
  read_digits 10 (NilEmpty.string_of_uint d) None
  = Some (Z.of_N (Pos.of_uint d)).
Proof.
  intros Hd. rewrite Unsigned.of_uint_alt.
  destruct d as [|d|d|d|d|d|d|d|d|d|d]; [congruence|..];
    unfold Decimal.rev; cbn [Decimal.revapp];
    rewrite Unsigned.of_lu_revapp; cbn [Unsigned.of_lu];
    digit_step; rewrite read_digits_uint; f_equal;
    rewrite N2Z.inj_add, N2Z.inj_mul, N2Z.inj_pow;
    simpl Z.of_nat; simpl Z.of_N; ring.
Qed.

Lemma uint_no_space (d : Decimal.uint) :
  trim_start (NilEmpty.string_of_uint d) = NilEmpty.string_of_uint d.
Proof. destruct d; reflexivity. Qed.

Lemma uint_no_sign (d : Decimal.uint) :
  strip_sign (NilEmpty.string_of_uint d) = (1%Z, NilEmpty.string_of_uint d).
Proof. destruct d; reflexivity. Qed.

Lemma uint_no_hex (d : Decimal.uint) :
  strip_hex_prefix (NilEmpty.string_of_uint d)
  = (10, NilEmpty.string_of_uint d).
Proof.
  destruct d as [|d|d|d|d|d|d|d|d|d|d]; try reflexivity.
  destruct d; reflexivity.
Qed.

(** Up to 2^53 the rounding to a double changes nothing. *)
Lemma round_safe (z : Z) :
  (Z.abs z <= max_safe)%Z -> round_to_double z = Int z.
Proof.
  intros H. apply Z.leb_le in H. unfold round_to_double. cbv zeta.
  now rewrite H.
Qed.

Lemma parseInt_uint (p : positive) :
  parseInt (NilEmpty.string_of_uint (Pos.to_uint p))
  = round_to_double (Zpos p).
Proof.
  unfold parseInt. rewrite uint_no_space, uint_no_sign, uint_no_hex.
  rewrite read_digits_start by apply Unsigned.to_uint_nonnil.
  now rewrite Unsigned.of_to.
Qed.

(** [parseInt] reads the digits [toString] prints back as the double
    nearest to the integer. *)
Lemma parseInt_toString (z : Z) :
  parseInt (int_toString z) = round_to_double z.
Proof.
  destruct z as [|p|p]; [reflexivity | apply parseInt_uint |].
  unfold int_toString. simpl Z.to_int.
  cbn [NilEmpty.string_of_int]. unfold parseInt.
  change (trim_start (String "-" (NilEmpty.string_of_uint (Pos.to_uint p))))
    with (String "-" (NilEmpty.string_of_uint (Pos.to_uint p))).
  cbn [strip_sign]. rewrite uint_no_hex.
  rewrite read_digits_start by apply Unsigned.to_uint_nonnil.
  now rewrite Unsigned.of_to.
Qed.

Lemma int_toString_read (z : Z) :
  NilEmpty.int_of_string (int_toString z) = Some (Z.to_int z).
Proof. apply NilEmpty.isi. Qed.

Lemma toString_nonempty (n : number) : truthy_string (number_toString n) = true.
Proof.
  unfold truthy_string.
  destruct (String.eqb_spec (number_toString n) "") as [He|]; [|reflexivity].
  destruct n as [|z|[|]]; try discriminate He.
  simpl in He. pose proof (int_toString_read z) as Hr. rewrite He in Hr.
  destruct z as [|p|p]; try discriminate Hr.
  injection Hr as Hr. symmetry in Hr.
  now apply Unsigned.to_uint_nonnil in Hr.
Qed.

Lemma toString_injective (n m : number) :
  number_toString n = number_toString m -> n = m.
Proof.
  assert (forall z text,
             NilEmpty.int_of_string text = None -> int_toString z <> text)
    as Hno.
  { intros z text Ht He. pose proof (int_toString_read z) as Hr.
    rewrite He, Ht in Hr. discriminate Hr. }
  destruct n as [|z|[|]], m as [|z'|[|]]; simpl; intros H;
    try reflexivity; try discriminate H;
    try (now apply Hno in H); try (symmetry in H; now apply Hno in H).
  f_equal. apply DecimalZ.to_int_inj.
  pose proof (int_toString_read z) as Hr. rewrite H, int_toString_read in Hr.
  now injection Hr.
Qed.

Lemma append_cancel_r (a b s : string) :
  (a ++ s = b ++ s)%string -> a = b.
Proof.
  assert (forall x y, String.length (x ++ y)%string
                      = String.length x + String.length y) as Hlen
    by (induction x; simpl; intros; [reflexivity | now rewrite IHx]).
  revert b. induction a as [|c a IH]; intros [|c' b] H; simpl in H.
  - reflexivity.
  - apply (f_equal String.length) in H. simpl in H. rewrite Hlen in H. lia.
  - apply (f_equal String.length) in H. simpl in H. rewrite Hlen in H. lia.
  - injection H as -> H. f_equal. now apply IH.
Qed.

Lemma pageKey_injective (t t' : number) : pageKey t = pageKey t' -> t = t'.
Proof.
  unfold pageKey. intros H. simpl in H.
  repeat match type of H with
         | String _ _ = String _ _ => injection H as H
         end.
  apply append_cancel_r in H. now apply toString_injective.
Qed.

(** The page a handler saved, an integer up to 2^53, is the page the
    initializer reads back. *)
Lemma savePage_read_back (type_id page : number) (st : Pager) :
  safeInteger page = true ->
  initialPage type_id (sessionStorage (savePage type_id page st)) = page.
Proof.
  intros Hs. unfold initialPage, savePage. simpl.
  rewrite getItem_setItem_same, toString_nonempty.
  destruct page as [|z|negative]; try discriminate Hs.
  simpl in Hs. apply Z.leb_le in Hs.
  simpl number_toString. rewrite parseInt_toString. now apply round_safe.
Qed.

Lemma savePage_other_key (type_id type_id' page : number) (st : Pager) :
  type_id <> type_id' ->
  initialPage type_id' (sessionStorage (savePage type_id page st))
  = initialPage type_id' (sessionStorage st).
Proof.
  intros Hne. unfold initialPage, savePage. simpl.
  rewrite getItem_setItem_other; [reflexivity|].
  intros Hk. apply Hne. now apply pageKey_injective.
Qed.

(** The handlers on integer pages up to 2^53, where [c - 1] and [c + 1]
    are exact. *)
Lemma handlePrevPage_int (type_id cnt : number) (c : Z) (j : string)
    (s : storage) :
  (Z.abs c <= max_safe)%Z ->
  handlePrevPage type_id
    {| currentPage := Int c; pageCount := cnt; jumpPage := j;
       sessionStorage := s |}
  = if (1 <? c)%Z
    then savePage type_id (Int (c - 1))
           {| currentPage := Int c; pageCount := cnt; jumpPage := j;
              sessionStorage := s |}
    else {| currentPage := Int c; pageCount := cnt; jumpPage := j;
            sessionStorage := s |}.
Proof.
  intros Hc. unfold handlePrevPage, num_gt, num_lt, num_sub, num_add, num_neg.
  cbn [currentPage].
  destruct (Z.ltb_spec 1 c) as [H1|H1]; [|reflexivity].
  f_equal. change (c + - (1))%Z with (c - 1)%Z. apply round_safe.
  unfold max_safe in *. lia.
Qed.

Lemma handleNextPage_int (type_id : number) (c n : Z) (j : string)
    (s : storage) :
  (Z.abs c <= max_safe)%Z -> (Z.abs n <= max_safe)%Z ->
  handleNextPage type_id
    {| currentPage := Int c; pageCount := Int n; jumpPage := j;
       sessionStorage := s |}
  = if (c <? n)%Z
    then savePage type_id (Int (c + 1))
           {| currentPage := Int c; pageCount := Int n; jumpPage := j;
              sessionStorage := s |}
    else {| currentPage := Int c; pageCount := Int n; jumpPage := j;
            sessionStorage := s |}.
Proof.
  intros Hc Hn. unfold handleNextPage, num_lt, num_add.
  cbn [currentPage pageCount].
  destruct (Z.ltb_spec c n) as [H1|H1]; [|reflexivity].
  f_equal. apply round_safe. unfold max_safe in *. lia.
Qed.

(** A jump goes to an integer page between 1 and the page count, or
    nowhere. *)
Lemma handleJumpPage_int (type_id cur : number) (n : Z) (j : string)
    (s : storage) :
  handleJumpPage type_id
    {| currentPage := cur; pageCount := Int n; jumpPage := j;
       sessionStorage := s |}
  = match parseInt j with
    | Int p =>
        if (1 <=? p)%Z && (p <=? n)%Z
        then setJumpPage ""
               (savePage type_id (Int p)
                  {| currentPage := cur; pageCount := Int n; jumpPage := j;
                     sessionStorage := s |})
        else {| currentPage := cur; pageCount := Int n; jumpPage := j;
                sessionStorage := s |}
    | _ => {| currentPage := cur; pageCount := Int n; jumpPage := j;
              sessionStorage := s |}
    end.
Proof.
  unfold handleJumpPage, num_ge, num_le. cbn [jumpPage pageCount].
  destruct (parseInt j) as [|p|[|]]; reflexivity.
Qed.

(** What the hypotheses on the two pages say about the integers. *)
Lemma safeInteger_int (n : number) :
  safeInteger n = true -> exists z, n = Int z /\ (Z.abs z <= max_safe)%Z.
Proof.
  destruct n as [|z|negative]; try discriminate. simpl. intros H.
  apply Z.leb_le in H. eauto.
Qed.

Lemma inRange_int (cur : number) (n : Z) (j : string) (s : storage) :
  inRange {| currentPage := cur; pageCount := Int n; jumpPage := j;
             sessionStorage := s |} = true ->
  exists c, cur = Int c /\ (1 <= c <= n)%Z.
Proof.
  unfold inRange, num_le. cbn [currentPage pageCount].
  destruct cur as [|c|[|]]; try discriminate.
  intros H. apply andb_true_iff in H as [H1 H2].
  apply Z.leb_le in H1, H2. eauto.
Qed.

Lemma inRange_of_int (c n : Z) (j : string) (s : storage) :
  (1 <= c <= n)%Z ->
  inRange {| currentPage := Int c; pageCount := Int n; jumpPage := j;
             sessionStorage := s |} = true.
Proof.
  intros [H1 H2]. unfold inRange, num_le. cbn [currentPage pageCount].
  apply andb_true_iff. split; now apply Z.leb_le.
Qed.

(** Above 2^53 the arithmetic of the handlers is no longer exact:
    [2^53 + 1] is [2^53], and on page [2^53 + 4], already saved, the
    previous button is enabled while its handler changes nothing. *)
Lemma rounding_above_safe :
  num_add (Int max_safe) (Int 1) = Int max_safe /\
  prevDisabled
    {| currentPage := Int (max_safe + 4); pageCount := Int (max_safe + 8);
       jumpPage := "";
       sessionStorage := [(pageKey (Int 7), "9007199254740996")] |}
  = false /\
  handlePrevPage (Int 7)
    {| currentPage := Int (max_safe + 4); pageCount := Int (max_safe + 8);
       jumpPage := "";
       sessionStorage := [(pageKey (Int 7), "9007199254740996")] |}
  = {| currentPage := Int (max_safe + 4); pageCount := Int (max_safe + 8);
       jumpPage := "";
       sessionStorage := [(pageKey (Int 7), "9007199254740996")] |}.
Proof. repeat split; vm_compute; reflexivity. Qed.

(** X12: while the page count is an integer up to 2^53 and the current
    page is a number with [1 <= currentPage <= pageCount], the previous,
    next and jump handlers and the Enter key keep it so, and none of them
    changes the page count. *)
Theorem handlers_keep_range (type_id : number) (st : Pager) :
  safeInteger (pageCount st) = true ->
  inRange st = true ->
  inRange (handlePrevPage type_id st) = true /\
  inRange (handleNextPage type_id st) = true /\
  inRange (handleJumpPage type_id st) = true /\
  (forall key, inRange (handleJumpPageKeyDown type_id key st) = true) /\
  pageCount (handlePrevPage type_id st) = pageCount st /\
  pageCount (handleNextPage type_id st) = pageCount st /\
  pageCount (handleJumpPage type_id st) = pageCount st.
Proof.
  intros Hs Hr. destruct st as [cur cnt j s]. cbn [pageCount] in Hs.
  destruct (safeInteger_int cnt Hs) as [n [-> Hn]].
  destruct (inRange_int cur n j s Hr) as [c [-> [H1 H2]]].
  assert (Z.abs c <= max_safe)%Z as Hc by (unfold max_safe in *; lia).
  rewrite (handlePrevPage_int type_id (Int n) c j s Hc).
  rewrite (handleNextPage_int type_id c n j s Hc Hn).
  assert (inRange
            (handleJumpPage type_id
               {| currentPage := Int c; pageCount := Int n; jumpPage := j;
                  sessionStorage := s |}) = true /\
          pageCount
            (handleJumpPage type_id
               {| currentPage := Int c; pageCount := Int n; jumpPage := j;
                  sessionStorage := s |}) = Int n) as [Hjump Hcount].
  { rewrite handleJumpPage_int.
    destruct (parseInt j) as [|p|negative]; [now split | | now split].
    destruct ((1 <=? p)%Z && (p <=? n)%Z) eqn:E; [|now split].
    apply andb_true_iff in E as [E1 E2]. apply Z.leb_le in E1, E2.
    split; [|reflexivity]. now apply inRange_of_int. }
  split; [|split; [|split; [|split; [|split; [|split]]]]].
  - destruct (Z.ltb_spec 1 c); [|assumption].
    apply inRange_of_int. lia.
  - destruct (Z.ltb_spec c n); [|assumption].
    apply inRange_of_int. lia.
  - assumption.
  - intros key. unfold handleJumpPageKeyDown.
    destruct (String.eqb key "Enter"); assumption.
  - destruct (1 <? c)%Z; reflexivity.
  - destruct (c <? n)%Z; reflexivity.
  - assumption.
Qed.

Lemma handlers_keep_range_witness :
  inRange {| currentPage := Int 3; pageCount := Int 5; jumpPage := "5";
             sessionStorage := [] |} = true /\
  inRange (handleJumpPage (Int 7)
             {| currentPage := Int 3; pageCount := Int 5; jumpPage := "5";
                sessionStorage := [] |}) = true.
Proof.
  split; [reflexivity|].
  exact (proj1 (proj2 (proj2
    (handlers_keep_range (Int 7)
       {| currentPage := Int 3; pageCount := Int 5; jumpPage := "5";
          sessionStorage := [] |} eq_refl eq_refl)))).
Defined.

(** X13: when the current page and the page count are integers up to
    2^53, each handler either leaves the state, storage included, as it
    was, or saves the new page under the key of the category in such a way
    that the initializer of [currentPage] reads the same page back. *)
Theorem saved_page_read_back (type_id : number) (st : Pager) :
  safeInteger (currentPage st) = true ->
  safeInteger (pageCount st) = true ->
  (handlePrevPage type_id st = st \/
   initialPage type_id (sessionStorage (handlePrevPage type_id st))
   = currentPage (handlePrevPage type_id st)) /\
  (handleNextPage type_id st = st \/
   initialPage type_id (sessionStorage (handleNextPage type_id st))
   = currentPage (handleNextPage type_id st)) /\
  (handleJumpPage type_id st = st \/
   initialPage type_id (sessionStorage (handleJumpPage type_id st))
   = currentPage (handleJumpPage type_id st)) /\
  (forall key,
      handleJumpPageKeyDown type_id key st = st \/
      initialPage type_id
        (sessionStorage (handleJumpPageKeyDown type_id key st))
      = currentPage (handleJumpPageKeyDown type_id key st)).
Proof.
  intros Hsc Hsn. destruct st as [cur cnt j s].
  cbn [currentPage pageCount] in Hsc, Hsn.
  destruct (safeInteger_int cur Hsc) as [c [-> Hc]].
  destruct (safeInteger_int cnt Hsn) as [n [-> Hn]].
  rewrite (handlePrevPage_int type_id (Int n) c j s Hc).
  rewrite (handleNextPage_int type_id c n j s Hc Hn).
  assert (forall p st0,
             (Z.abs p <= max_safe)%Z ->
             initialPage type_id
               (sessionStorage (savePage type_id (Int p) st0)) = Int p)
    as Hback.
  { intros p st0 Hp. apply savePage_read_back. simpl. now apply Z.leb_le. }
  assert (handleJumpPage type_id
            {| currentPage := Int c; pageCount := Int n; jumpPage := j;
               sessionStorage := s |}
          = {| currentPage := Int c; pageCount := Int n; jumpPage := j;
               sessionStorage := s |} \/
          initialPage type_id
            (sessionStorage
               (handleJumpPage type_id
                  {| currentPage := Int c; pageCount := Int n; jumpPage := j;
                     sessionStorage := s |}))
          = currentPage
              (handleJumpPage type_id
                 {| currentPage := Int c; pageCount := Int n; jumpPage := j;
                    sessionStorage := s |})) as Hjump.
  { rewrite handleJumpPage_int.
    destruct (parseInt j) as [|p|negative]; [now left | | now left].
    destruct ((1 <=? p)%Z && (p <=? n)%Z) eqn:E; [right | now left].
    apply andb_true_iff in E as [E1 E2]. apply Z.leb_le in E1, E2.
    apply Hback. unfold max_safe in *. lia. }
  split; [|split; [|split]].
  - destruct (Z.ltb_spec 1 c); [right | now left].
    apply Hback. unfold max_safe in *. lia.
  - destruct (Z.ltb_spec c n); [right | now left].
    apply Hback. unfold max_safe in *. lia.
  - assumption.
  - intros key. unfold handleJumpPageKeyDown.
    destruct (String.eqb key "Enter"); [assumption | now left].
Qed.

Lemma saved_page_read_back_witness :
  initialPage (Int 7)
    (sessionStorage
       (handleNextPage (Int 7)
          {| currentPage := Int 2; pageCount := Int 5; jumpPage := "";
             sessionStorage := [] |}))
  = Int 3.
Proof.
  destruct (proj1 (proj2
    (saved_page_read_back (Int 7)
       {| currentPage := Int 2; pageCount := Int 5; jumpPage := "";
          sessionStorage := [] |} eq_refl eq_refl))) as [H|H].
  - discriminate H.
  - exact H.
Defined.

(** X14: when the current page and the page count are integers up to
    2^53, the previous and next buttons are disabled exactly when their
    handlers would change nothing, and an enabled jump button whose text
    parses to a number jumps to that page, which lies between 1 and the
    page count and differs from the current one, and clears the text. *)
Theorem buttons_match_handlers (type_id : number) (st : Pager) (c n : Z) :
  currentPage st = Int c ->
  pageCount st = Int n ->
  safeInteger (currentPage st) = true ->
  safeInteger (pageCount st) = true ->
  (prevDisabled st = true <-> handlePrevPage type_id st = st) /\
  (nextDisabled st = true <-> handleNextPage type_id st = st) /\
  (jumpDisabled st = false ->
   forall p,
     parseInt (jumpPage st) = Int p ->
     handleJumpPage type_id st
     = setJumpPage "" (savePage type_id (Int p) st) /\
     (1 <= p <= n)%Z /\ p <> c).
Proof.
  intros Hc Hn Hsc Hsn. destruct st as [cur cnt j s]. simpl in Hc, Hn. subst.
  cbn [currentPage pageCount safeInteger] in Hsc, Hsn.
  apply Z.leb_le in Hsc, Hsn.
  rewrite (handlePrevPage_int type_id (Int n) c j s Hsc).
  rewrite (handleNextPage_int type_id c n j s Hsc Hsn).
  split; [|split].
  - unfold prevDisabled, num_le. cbn [currentPage].
    destruct (Z.ltb_spec 1 c) as [H|H]; split.
    + intros Hd. apply Z.leb_le in Hd. lia.
    + intros Hs. apply (f_equal currentPage) in Hs. simpl in Hs.
      injection Hs as Hs. lia.
    + reflexivity.
    + intros _. now apply Z.leb_le.
  - unfold nextDisabled, num_ge, num_le. cbn [currentPage pageCount].
    destruct (Z.ltb_spec c n) as [H|H]; split.
    + intros Hd. apply Z.leb_le in Hd. lia.
    + intros Hs. apply (f_equal currentPage) in Hs. simpl in Hs.
      injection Hs as Hs. lia.
    + reflexivity.
    + intros _. now apply Z.leb_le.
  - intros Hd p Hp. rewrite handleJumpPage_int.
    unfold jumpDisabled in Hd. cbn [jumpPage currentPage pageCount] in *.
    rewrite Hp in *.
    unfold num_gt, num_lt, num_eq in Hd.
    apply orb_false_elim in Hd as [Hd Heq].
    apply orb_false_elim in Hd as [Hd Hgt].
    apply orb_false_elim in Hd as [_ Hlt].
    apply Z.ltb_ge in Hlt, Hgt. apply Z.eqb_neq in Heq.
    assert ((1 <=? p)%Z = true) as -> by (apply Z.leb_le; lia).
    assert ((p <=? n)%Z = true) as -> by (apply Z.leb_le; lia).
    simpl. split; [reflexivity|]. split; [lia | assumption].
Qed.

Lemma buttons_match_handlers_witness :
  prevDisabled {| currentPage := Int 1; pageCount := Int 5; jumpPage := "4";
                  sessionStorage := [] |} = true <->
  handlePrevPage (Int 7)
    {| currentPage := Int 1; pageCount := Int 5; jumpPage := "4";
       sessionStorage := [] |}
  = {| currentPage := Int 1; pageCount := Int 5; jumpPage := "4";
       sessionStorage := [] |}.
Proof.
  exact (proj1
    (buttons_match_handlers (Int 7)
       {| currentPage := Int 1; pageCount := Int 5; jumpPage := "4";
          sessionStorage := [] |} 1 5 eq_refl eq_refl eq_refl eq_refl)).
Defined.

(** X15: from a page below a page count that is an integer up to 2^53,
    next followed by previous comes back to the same page, and that page
    is the one saved. *)
Theorem next_then_prev (type_id : number) (st : Pager) (c n : Z) :
  currentPage st = Int c ->
  pageCount st = Int n ->
  safeInteger (pageCount st) = true ->
  (1 <= c < n)%Z ->
  currentPage (handlePrevPage type_id (handleNextPage type_id st)) = Int c /\
  pageCount (handlePrevPage type_id (handleNextPage type_id st)) = Int n /\
  jumpPage (handlePrevPage type_id (handleNextPage type_id st)) = jumpPage st /\
  initialPage type_id
    (sessionStorage (handlePrevPage type_id (handleNextPage type_id st)))
  = Int c.
Proof.
  intros Hc Hn Hsn Hr. destruct st as [cur cnt j s]. simpl in Hc, Hn. subst.
  cbn [pageCount safeInteger] in Hsn. apply Z.leb_le in Hsn.
  assert (Z.abs c <= max_safe)%Z as Hsc by (unfold max_safe in *; lia).
  assert (Z.abs (c + 1) <= max_safe)%Z as Hs1 by (unfold max_safe in *; lia).
  rewrite (handleNextPage_int type_id c n j s Hsc Hsn).
  assert ((c <? n)%Z = true) as -> by (apply Z.ltb_lt; lia).
  unfold savePage. cbn [currentPage pageCount jumpPage sessionStorage].
  rewrite (handlePrevPage_int type_id (Int n) (c + 1) j _ Hs1).
  assert ((1 <? c + 1)%Z = true) as -> by (apply Z.ltb_lt; lia).
  replace (c + 1 - 1)%Z with c by lia.
  split; [reflexivity|]. split; [reflexivity|]. split; [reflexivity|].
  apply savePage_read_back. simpl. now apply Z.leb_le.
Qed.

Lemma next_then_prev_witness :
  currentPage
    (handlePrevPage (Int 7)
       (handleNextPage (Int 7)
          {| currentPage := Int 2; pageCount := Int 5; jumpPage := "";
             sessionStorage := [] |}))
  = Int 2.
Proof.
  exact (proj1
    (next_then_prev (Int 7)
       {| currentPage := Int 2; pageCount := Int 5; jumpPage := "";
          sessionStorage := [] |} 2 5 eq_refl eq_refl eq_refl ltac:(lia))).
Defined.

(** X16: a saved page that does not parse to a number starts the
    component on a NaN page; on a NaN page the previous and next buttons
    are enabled and their handlers change nothing. *)
Theorem nan_page_is_stuck (type_id : number) (saved : string) (s : storage)
    (st : Pager) :
  saved <> "" ->
  parseInt saved = NaN ->
  currentPage st = NaN ->
  initialPage type_id (setItem (pageKey type_id) saved s) = NaN /\
  prevDisabled st = false /\
  nextDisabled st = false /\
  handlePrevPage type_id st = st /\
  handleNextPage type_id st = st.
Proof.
  intros Hne Hp Hc. split.
  - unfold initialPage. rewrite getItem_setItem_same.
    unfold truthy_string. apply String.eqb_neq in Hne. now rewrite Hne.
  - destruct st as [cur cnt j s']. simpl in Hc. subst.
    unfold prevDisabled, nextDisabled, handlePrevPage, handleNextPage,
      num_ge, num_gt, num_le, num_lt. simpl.
    destruct cnt; auto.
Qed.

Lemma nan_page_is_stuck_witness :
  initialPage (Int 7) (setItem (pageKey (Int 7)) "abc" []) = NaN /\
  prevDisabled {| currentPage := NaN; pageCount := Int 5; jumpPage := "";
                  sessionStorage := [] |} = false.
Proof.
  destruct (nan_page_is_stuck (Int 7) "abc" []
              {| currentPage := NaN; pageCount := Int 5; jumpPage := "";
                 sessionStorage := [] |}
              ltac:(discriminate) eq_refl eq_refl) as [H1 [H2 _]].
  split; assumption.
Defined.

(** X17: the handlers of one category never change the page saved for
    another category. *)
Theorem page_keys_separate (type_id other : number) (st : Pager) :
  type_id <> other ->
  initialPage other (sessionStorage (handlePrevPage type_id st))
  = initialPage other (sessionStorage st) /\
  initialPage other (sessionStorage (handleNextPage type_id st))
  = initialPage other (sessionStorage st) /\
  initialPage other (sessionStorage (handleJumpPage type_id st))
  = initialPage other (sessionStorage st) /\
  (forall key,
      initialPage other
        (sessionStorage (handleJumpPageKeyDown type_id key st))
      = initialPage other (sessionStorage st)).
Proof.
  intros Hne.
  assert (initialPage other (sessionStorage (handleJumpPage type_id st))
          = initialPage other (sessionStorage st)) as Hjump.
  { unfold handleJumpPage. destruct (negb _ && _ && _); [|reflexivity].
    now apply savePage_other_key. }
  repeat split.
  - unfold handlePrevPage. destruct (num_gt _ _); [|reflexivity].
    now apply savePage_other_key.
  - unfold handleNextPage. destruct (num_lt _ _); [|reflexivity].
    now apply savePage_other_key.
  - assumption.
  - intros key. unfold handleJumpPageKeyDown.
    destruct (String.eqb key "Enter"); [assumption | reflexivity].
Qed.

Lemma page_keys_separate_witness :
  initialPage (Int 8)
    (sessionStorage
       (handleNextPage (Int 7)
          {| currentPage := Int 2; pageCount := Int 5; jumpPage := "";
             sessionStorage := [(pageKey (Int 8), "4")] |}))
  = initialPage (Int 8) [(pageKey (Int 8), "4")].
Proof.
  exact (proj1 (proj2
    (page_keys_separate (Int 7) (Int 8)
       {| currentPage := Int 2; pageCount := Int 5; jumpPage := "";
          sessionStorage := [(pageKey (Int 8), "4")] |}
       ltac:(discriminate)))).
Defined.

End PagerFacts.

(** ** Properties of the tag stripping *)

Module MarkupFacts.
Import Markup.

Lemma has_gt_app (a b : string) :
  has_gt (a ++ b)%string = has_gt a || has_gt b.
Proof.
  induction a as [|c a IH]; simpl; [reflexivity|].
  now rewrite IH, orb_assoc.
Qed.

(** Where no [<] has a [>] after it, nothing is removed. *)
Lemma strip_unmatched (s : string) :
  matchesTag s = false -> stripTags_from false s = s.
Proof.
  induction s as [|c s IH]; simpl; [reflexivity|].
  intros H. apply orb_false_elim in H as [H1 H2].
  rewrite H1. f_equal. now apply IH.
Qed.

Lemma no_gt_unmatched (s : string) : has_gt s = false -> matchesTag s = false.
Proof.
  induction s as [|c s IH]; simpl; [reflexivity|].
  intros H. apply orb_false_elim in H as [_ H].
  rewrite H, andb_false_r. simpl. now apply IH.
Qed.

Lemma no_lt_unmatched (s : string) : has_lt s = false -> matchesTag s = false.
Proof.
  induction s as [|c s IH]; simpl; [reflexivity|].
  intros H. apply orb_false_elim in H as [H1 H2].
  rewrite H1. simpl. now apply IH.
Qed.

Lemma strip_no_tag (inside : bool) (s : string) :
  matchesTag (stripTags_from inside s) = false.
Proof.
  revert inside. induction s as [|c s IH]; intros inside; simpl.
  - reflexivity.
  - destruct inside.
    + destruct (Ascii.eqb c gt_char); apply IH.
    + destruct (Ascii.eqb c lt_char && has_gt s) eqn:E; [apply IH|].
      simpl. rewrite IH, orb_false_r.
      apply andb_false_iff in E. destruct E as [E|E].
      * now rewrite E.
      * rewrite (strip_unmatched s (no_gt_unmatched s E)), E.
        apply andb_false_r.
Qed.

Lemma strip_length (inside : bool) (s : string) :
  String.length (stripTags_from inside s) <= String.length s.
Proof.
  revert inside. induction s as [|c s IH]; intros inside; simpl.
  - lia.
  - destruct inside.
    + destruct (Ascii.eqb c gt_char);
        [specialize (IH false) | specialize (IH true)]; lia.
    + destruct (Ascii.eqb c lt_char && has_gt s); simpl;
        [specialize (IH true) | specialize (IH false)]; lia.
Qed.

(** Inside a tag, everything up to the first [>] goes. *)
Lemma strip_inside (t b : string) :
  has_gt t = false ->
  stripTags_from true (t ++ String gt_char b) = stripTags_from false b.
Proof.
  induction t as [|c t IH]; simpl.
  - intros _. reflexivity.
  - intros H. apply orb_false_elim in H as [H1 H2]. rewrite H1. now apply IH.
Qed.

(** Text with no [<] in it is kept, whatever follows. *)
Lemma strip_text (a b : string) :
  has_lt a = false ->
  stripTags_from false (a ++ b) = (a ++ stripTags_from false b)%string.
Proof.
  induction a as [|c a IH]; simpl; [reflexivity|].
  intros H. apply orb_false_elim in H as [H1 H2].
  rewrite H1. simpl. f_equal. now apply IH.
Qed.

(** X18: the stripped text holds no [<] with a [>] after it, so stripping
    it again changes nothing; it is never longer than the text; and a text
    is left as it is exactly when no [<] of it has a [>] after it. *)
Theorem stripTags_leaves_no_tag (s : string) :
  matchesTag (stripTags s) = false /\
  stripTags (stripTags s) = stripTags s /\
  String.length (stripTags s) <= String.length s /\
  (stripTags s = s <-> matchesTag s = false).
Proof.
  unfold stripTags.
  pose proof (strip_no_tag false s) as Hn.
  split; [assumption|]. split; [now apply strip_unmatched|].
  split; [apply strip_length|]. split.
  - intros H. now rewrite <- H.
  - apply strip_unmatched.
Qed.

(** X19: text with no [<] in it, followed by a tag, that is a [<], any
    characters other than [>], and a [>], is kept without the tag,
    followed by the rest stripped in the same way. *)
Theorem stripTags_text_then_tag (a t b : string) :
  has_lt a = false ->
  has_gt t = false ->
  stripTags (a ++ String lt_char (t ++ String gt_char b))
  = (a ++ stripTags b)%string /\
  stripTags a = a.
Proof.
  intros Ha Ht. unfold stripTags. split.
  - rewrite strip_text by assumption. f_equal.
    cbn [stripTags_from].
    assert (has_gt (t ++ String gt_char b) = true) as ->
      by (rewrite has_gt_app; simpl; apply orb_true_r).
    rewrite Ascii.eqb_refl. simpl.
    now apply strip_inside.
  - apply strip_unmatched. now apply no_lt_unmatched.
Qed.

Lemma stripTags_text_then_tag_witness :
  stripTags "Hello <b class='x'>world" = "Hello world".
Proof.
  exact (proj1 (stripTags_text_then_tag "Hello " "b class='x'" "world"
                  eq_refl eq_refl)).
Defined.

End MarkupFacts.

(** ** Properties of [DbService] and the health panel *)

Module DbFacts.
Import Js WebStorage Db.

Lemma assign_lookup (source target : props) (k : string) :
  NoDup (map fst source) ->
  get_own k (assign target source)
  = match get_own k source with
    | Some v => Some v
    | None => get_own k target
    end.
Proof.
  unfold assign. revert target.
  induction source as [|[k0 v0] source IH]; intros target Hnd; simpl.
  - reflexivity.
  - simpl in Hnd. inversion Hnd as [|? ? Hnotin Hnd']; subst.
    rewrite (IH _ Hnd').
    destruct (String.eqb_spec k0 k) as [->|Hne].
    + assert (get_own k source = None) as ->.
      { clear -Hnotin. induction source as [|[k1 v1] source IH]; simpl;
          [reflexivity|].
        simpl in Hnotin. destruct (String.eqb_spec k1 k) as [->|_];
          [tauto|]. apply IH. tauto. }
      apply XmlFacts.get_own_set_same.
    + destruct (get_own k source); [reflexivity|].
      now apply XmlFacts.get_own_set_other.
Qed.

(** Every way [request] can settle on a response that is not ok is a
    rejection. *)
Lemma request_not_ok (response : Reply) :
  ok response = false -> exists e, request (Some response) = Raise e.
Proof.
  intros Hok. unfold request, readJson. rewrite Hok. simpl.
  destruct (json response) as [error|]; [|eauto].
  destruct (getProp error "error"); eauto.
Qed.

(** X20: a stored id that is not empty is returned and the storage left
    as it is; when no id is stored, or an empty one, the new id is returned
    and stored under the key. Either way the id is then in the storage,
    other keys are untouched, and, the new id not being empty, every later
    call returns the same id and changes nothing. *)
Theorem getOrCreateUserId_stable (randomUUID : string) (localStorage : storage) :
  randomUUID <> "" ->
  fst (getOrCreateUserId randomUUID localStorage) <> "" /\
  getItem userIdKey (snd (getOrCreateUserId randomUUID localStorage))
  = Some (fst (getOrCreateUserId randomUUID localStorage)) /\
  (forall key,
      key <> userIdKey ->
      getItem key (snd (getOrCreateUserId randomUUID localStorage))
      = getItem key localStorage) /\
  (forall later,
      getOrCreateUserId later
        (snd (getOrCreateUserId randomUUID localStorage))
      = getOrCreateUserId randomUUID localStorage) /\
  (forall stored,
      getItem userIdKey localStorage = Some stored -> stored <> "" ->
      getOrCreateUserId randomUUID localStorage = (stored, localStorage)) /\
  (getItem userIdKey localStorage = None \/
   getItem userIdKey localStorage = Some "" ->
   getOrCreateUserId randomUUID localStorage
   = (randomUUID, setItem userIdKey randomUUID localStorage)).
Proof.
  intros Hne.
  assert (truthy_string randomUUID = true) as Hu
    by (unfold truthy_string; apply String.eqb_neq in Hne; now rewrite Hne).
  unfold getOrCreateUserId.
  destruct (getItem userIdKey localStorage) as [stored|] eqn:Hg.
  - destruct (truthy_string stored) eqn:Ht; simpl;
      (split; [|split; [|split; [|split; [|split]]]]).
    + intros ->. discriminate Ht.
    + assumption.
    + reflexivity.
    + intros later. now rewrite Hg, Ht.
    + intros s [= ->] _. reflexivity.
    + intros [[=] | [= ->]]. discriminate Ht.
    + assumption.
    + apply PagerFacts.getItem_setItem_same.
    + intros key Hk. apply PagerFacts.getItem_setItem_other. congruence.
    + intros later. now rewrite PagerFacts.getItem_setItem_same, Hu.
    + intros s [= ->] Hs. unfold truthy_string in Ht.
      apply String.eqb_neq in Hs. rewrite Hs in Ht. discriminate.
    + reflexivity.
  - simpl. split; [|split; [|split; [|split; [|split]]]].
    + assumption.
    + apply PagerFacts.getItem_setItem_same.
    + intros key Hk. apply PagerFacts.getItem_setItem_other. congruence.
    + intros later. now rewrite PagerFacts.getItem_setItem_same, Hu.
    + intros s [=].
    + reflexivity.
Qed.

Lemma getOrCreateUserId_stable_witness :
  getOrCreateUserId "later-id" (snd (getOrCreateUserId "first-id" []))
  = getOrCreateUserId "first-id" [].
Proof.
  destruct (getOrCreateUserId_stable "first-id" [] ltac:(discriminate))
    as [_ [_ [_ [H _]]]].
  exact (H "later-id").
Defined.

(** X21: a header the caller passes in [options.headers] replaces the
    default of the same name, [X-User-Id] included, and the defaults stand
    for the names it does not pass; the other options reach [fetch] as
    they were given. *)
Theorem caller_headers_win (userId : string) (options headers : props)
    (k : string) :
  get_own "headers" options = Some (Obj headers) ->
  NoDup (map fst headers) ->
  get_own k (requestHeaders userId options)
  = match get_own k headers with
    | Some v => Some v
    | None =>
        get_own k [ ("Content-Type", Str "application/json");
                    ("X-User-Id", Str userId) ]
    end /\
  get_own "headers" (requestInit userId options)
  = Some (Obj (requestHeaders userId options)) /\
  (k <> "headers" ->
   get_own k (requestInit userId options) = get_own k options).
Proof.
  intros Hh Hnd. split; [|split].
  - unfold requestHeaders, optionHeaders. rewrite Hh. simpl spread.
    now apply assign_lookup.
  - apply XmlFacts.get_own_set_same.
  - intros Hk. apply XmlFacts.get_own_set_other. congruence.
Qed.

Lemma caller_headers_win_witness :
  get_own "X-User-Id"
    (requestHeaders "u1"
       [ ("method", Str "PUT");
         ("headers", Obj [("X-User-Id", Str "someone-else")]) ])
  = Some (Str "someone-else").
Proof.
  exact (proj1
    (caller_headers_win "u1"
       [ ("method", Str "PUT");
         ("headers", Obj [("X-User-Id", Str "someone-else")]) ]
       [("X-User-Id", Str "someone-else")] "X-User-Id" eq_refl
       ltac:(repeat constructor; simpl; tauto))).
Defined.

(** X22: [request] resolves only on an ok response whose body is JSON,
    and then to that body; on a response that is not ok whose body is JSON
    with a readable [error] it rejects with an [Error]: its message is the
    [error] of the body when that is a string and not empty, and
    [Request failed] when the [error] is falsy or missing. *)
Theorem request_resolves_on_ok_json (fetched : option Reply) (v : value) :
  (request fetched = Ok v <->
   exists response,
     fetched = Some response /\ ok response = true /\
     json response = Some v) /\
  (forall response error message,
      fetched = Some response -> ok response = false ->
      json response = Some error ->
      getProp error "error" = Returned message ->
      exists e,
        request fetched = Raise e /\
        (forall text,
            message = Str text -> text <> "" -> errorMessage e = Some text) /\
        (truthy message = false -> errorMessage e = Some "Request failed")).
Proof.
  split.
  - split.
    + destruct fetched as [response|]; [|discriminate].
      destruct (ok response) eqn:Hok.
      * unfold request, readJson. rewrite Hok. simpl.
        destruct (json response) as [body|] eqn:Hj; [|discriminate].
        intros [= ->]. exists response. auto.
      * destruct (request_not_ok response Hok) as [e ->]. discriminate.
    + intros [response [-> [Hok Hj]]].
      unfold request, readJson. now rewrite Hok, Hj.
  - intros response error message -> Hok Hj Hm.
    unfold request, readJson. rewrite Hok, Hj. simpl. rewrite Hm.
    eexists. split; [reflexivity|]. split.
    + intros text -> Hne. simpl. apply String.eqb_neq in Hne.
      now rewrite Hne.
    + now intros ->.
Qed.

(** X23: [checkHealth] never rejects: it resolves to the body of an ok
    JSON response as it is, and in every other case, a rejected [fetch], a
    response that is not ok, a body that is not JSON, to the unhealthy
    status with latency 0 and its own error text, whatever error the
    server sent. *)
Theorem checkHealth_never_rejects (fetched : option Reply) (now : string) :
  checkHealth fetched now
  = Ok (match fetched with
        | Some response =>
            if ok response then
              match json response with
              | Some status => status
              | None => unhealthy now "Failed to connect to database API"
              end
            else unhealthy now "Failed to connect to database API"
        | None => unhealthy now "Failed to connect to database API"
        end).
Proof.
  unfold checkHealth. destruct fetched as [response|]; [|reflexivity].
  destruct (ok response) eqn:Hok.
  - unfold request, readJson. rewrite Hok. simpl.
    destruct (json response); reflexivity.
  - destruct (request_not_ok response Hok) as [e ->]. reflexivity.
Qed.

(** X24: a health check always ends with [isChecking] false and with the
    status [checkHealth] resolved to; the status of its own [catch] block
    is set only if [checkHealth] rejects, which it never does. *)
Theorem checkDatabaseHealth_settles (fetched : option Reply)
    (now later : string) (panel : HealthPanel) :
  checkDatabaseHealth_branch fetched now = TryBranch /\
  isChecking (checkDatabaseHealth fetched now later panel) = false /\
  (exists status,
      checkHealth fetched now = Ok status /\
      healthStatus (checkDatabaseHealth fetched now later panel)
      = Some status) /\
  checkDatabaseHealth fetched now later panel
  = checkDatabaseHealth fetched now "" panel.
Proof.
  unfold checkDatabaseHealth, checkDatabaseHealth_branch.
  destruct (checkHealth fetched now) as [status|e] eqn:H.
  - split; [reflexivity|]. split; [reflexivity|]. split; [|reflexivity].
    exists status. auto.
  - exfalso. unfold checkHealth in H. destruct (request fetched); discriminate.
Qed.

End DbFacts.
